(** * Budget planner: the SQLite store of [database.py]

    [BudgetDatabase] keeps three tables (categories, transactions, budgets) in
    one SQLite file and answers every request with a single SQL statement.
    The embedding below models a table as the list of its rows in rowid
    order together with its AUTOINCREMENT counter, and each method of the
    class as a function on the three tables.

    Conventions of the embedding:
    - TEXT values are [string]s (the UTF-8 bytes); SQLite compares TEXT with
      the BINARY collation, which is the byte-wise order of [String.leb] and
      the byte-wise equality of [String.eqb].
    - INTEGER values, and the [int] arguments bound to them, are [Z]: they
      are taken inside SQLite's 64-bit range, which no sequence of calls of
      realistic length leaves, and the embedding puts no bound on them.
    - A REAL value is an IEEE 754 double; a finite double is taken as the
      rational number [Q] it denotes, and an addition or subtraction of
      doubles is the exact one followed by the rounding [binary64] to the
      nearest double.  Infinities and NaN are not represented: amounts and
      their sums stay far below 2^1024.
    - The nullable columns [description] and [icon] always receive a string
      from the callers, so they are plain strings.
    - A pandas DataFrame or a cursor result is the list of its rows. *)

From Stdlib Require Import List String Ascii ZArith QArith Bool Lia Lqa.
From Stdlib Require Import Permutation Sorted.
Import ListNotations.
Local Open Scope string_scope.
Local Open Scope list_scope.

(** ** Rows of the three tables (the [CREATE TABLE] statements) *)

Module Category.
Record row : Type := Row {
  id : Z;
  name : string;
  type : string;
  icon : string
}.
End Category.

Module Transaction.
Record row : Type := Row {
  id : Z;
  amount : Q;
  category : string;
  description : string;
  date : string;
  type : string
}.
End Transaction.

Module Budget.
Record row : Type := Row {
  id : Z;
  category : string;
  amount : Q;
  month : Z;
  year : Z
}.
End Budget.

(** ** Tables with an [INTEGER PRIMARY KEY AUTOINCREMENT] column *)

(** [rows] lists the table in rowid order; [seq] is the table's entry in
    [sqlite_sequence] (0 when it has none yet). *)
Record table (R : Type) : Type := Table {
  rows : list R;
  seq : Z
}.
Arguments Table {R} _ _.
Arguments rows {R} _.
Arguments seq {R} _.

Definition empty_table {R : Type} : table R := Table [] 0%Z.

Section Autoincrement.
Context {R : Type} (rowid : R -> Z).

Definition max_rowid (l : list R) : Z :=
  fold_right Z.max 0%Z (map rowid l).

(** The rowid SQLite picks for a new row of an AUTOINCREMENT table: one
    more than the largest rowid the table has ever held. *)
Definition next_rowid (t : table R) : Z :=
  (Z.max (seq t) (max_rowid (rows t)) + 1)%Z.

(** [INSERT INTO t (...) VALUES (...)] when no constraint fails. *)
Definition insert (mk : Z -> R) (t : table R) : table R :=
  let i := next_rowid t in
  Table (rows t ++ [mk i]) i.

(** [INSERT OR IGNORE] whose row is ignored: no row is written, but the
    rowid that had been picked is still recorded in [sqlite_sequence]. *)
Definition insert_ignored (t : table R) : table R :=
  Table (rows t) (next_rowid t).

(** [DELETE FROM t WHERE p]; [sqlite_sequence] keeps its value. *)
Definition delete_where (p : R -> bool) (t : table R) : table R :=
  Table (filter (fun r => negb (p r)) (rows t)) (seq t).

(** [DELETE FROM t]. *)
Definition delete_all (t : table R) : table R :=
  Table [] (seq t).

End Autoincrement.

(** ** [ORDER BY]: a stable sort for a total comparison *)

Section OrderBy.
Context {A : Type} (leb : A -> A -> bool).

Fixpoint insert_sorted (x : A) (l : list A) : list A :=
  match l with
  | [] => [x]
  | y :: l' => if leb x y then x :: l else y :: insert_sorted x l'
  end.

(** Rows that compare equal keep the order they had in [l]; SQL leaves the
    order of such rows open, and no result below depends on it. *)
Definition order_by (l : list A) : list A :=
  fold_right insert_sorted [] l.

End OrderBy.

(** ** The database *)

(** The SQLite file: each table is there or not yet created. *)
Record file : Type := File {
  file_categories : option (table Category.row);
  file_transactions : option (table Transaction.row);
  file_budgets : option (table Budget.row)
}.

(** A [BudgetDatabase] object: the file after [init_database] has run, which
    the constructor does before any other method can be called. *)
Record db : Type := Db {
  categories : table Category.row;
  transactions : table Transaction.row;
  budgets : table Budget.row
}.

Definition empty_file : file := File None None None.

Definition file_of (d : db) : file :=
  File (Some (categories d)) (Some (transactions d)) (Some (budgets d)).

(** [CREATE TABLE IF NOT EXISTS]. *)
Definition create_table_if_not_exists {R : Type} (t : option (table R))
  : table R :=
  match t with
  | Some t => t
  | None => empty_table
  end.

Definition default_categories : list (string * string * string) :=
  [ ("Food & Dining", "expense", "🍔");
    ("Transportation", "expense", "🚗");
    ("Housing & Rent", "expense", "🏠");
    ("Utilities", "expense", "💡");
    ("Entertainment", "expense", "🎬");
    ("Shopping", "expense", "🛒");
    ("Healthcare", "expense", "🏥");
    ("Education", "expense", "📚");
    ("Other", "expense", "📌");
    ("Salary", "income", "💰");
    ("Freelance", "income", "💼");
    ("Investment", "income", "📈");
    ("Gift", "income", "🎁");
    ("Other Income", "income", "💵") ].

(** The [UNIQUE] constraint on [categories.name]. *)
Definition name_exists (name : string) (t : table Category.row) : bool :=
  existsb (fun r => Category.name r =? name) (rows t).

(** [INSERT OR IGNORE INTO categories (name, type, icon) VALUES (?, ?, ?)]. *)
Definition insert_or_ignore_category (t : table Category.row)
  (c : string * string * string) : table Category.row :=
  let '(name, cat_type, icon) := c in
  if name_exists name t
  then insert_ignored Category.id t
  else insert Category.id (fun i => Category.Row i name cat_type icon) t.

Definition init_database (f : file) : db :=
  let categories := create_table_if_not_exists (file_categories f) in
  let transactions := create_table_if_not_exists (file_transactions f) in
  let budgets := create_table_if_not_exists (file_budgets f) in
  Db (fold_left insert_or_ignore_category default_categories categories)
     transactions budgets.

Definition add_transaction (d : db) (amount : Q)
  (category description date trans_type : string) : db :=
  Db (categories d)
     (insert Transaction.id
        (fun i => Transaction.Row i amount category description date trans_type)
        (transactions d))
     (budgets d).

(** Truth value of an [Optional[str]] argument in [if arg:]. *)
Definition truthy (arg : option string) : bool :=
  match arg with
  | Some s => negb (s =? "")
  | None => false
  end.

(** The conditions [get_transactions] appends to [WHERE 1=1], each with the
    parameter bound to its [?]. *)
Inductive condition : Type :=
| date_ge (p : string)
| date_le (p : string)
| type_eq (p : string)
| category_eq (p : string).

Definition and_if (arg : option string) (c : string -> condition)
  (query : list condition) : list condition :=
  match arg with
  | Some s => if truthy arg then query ++ [c s] else query
  | None => query
  end.

Definition get_transactions_query
  (start_date end_date trans_type category : option string)
  : list condition :=
  let query := [] in
  let query := and_if start_date date_ge query in
  let query := and_if end_date date_le query in
  let query := and_if trans_type type_eq query in
  let query := and_if category category_eq query in
  query.

Definition holds (r : Transaction.row) (c : condition) : bool :=
  match c with
  | date_ge p => p <=? Transaction.date r
  | date_le p => Transaction.date r <=? p
  | type_eq p => Transaction.type r =? p
  | category_eq p => Transaction.category r =? p
  end.

(** [ORDER BY date DESC]. *)
Definition date_desc (a b : Transaction.row) : bool :=
  Transaction.date b <=? Transaction.date a.

Definition get_transactions (d : db)
  (start_date end_date trans_type category : option string)
  : list Transaction.row :=
  let query := get_transactions_query start_date end_date trans_type category in
  order_by date_desc
    (filter (fun r => forallb (holds r) query) (rows (transactions d))).

Definition delete_transaction (d : db) (trans_id : Z) : db :=
  Db (categories d)
     (delete_where (fun r => (Transaction.id r =? trans_id)%Z) (transactions d))
     (budgets d).

(** [ORDER BY name]. *)
Definition name_asc (a b : Category.row) : bool :=
  Category.name a <=? Category.name b.

(** The f-string [f"{icon} {name}"]. *)
Definition label (r : Category.row) : string :=
  Category.icon r ++ " " ++ Category.name r.

Definition get_categories (d : db) (cat_type : option string) : list string :=
  let categories :=
    match cat_type with
    | Some t =>
        if truthy cat_type
        then order_by name_asc
               (filter (fun r => Category.type r =? t) (rows (categories d)))
        else order_by name_asc (rows (categories d))
    | None => order_by name_asc (rows (categories d))
    end in
  map label categories.

(** The plain [INSERT] raises [sqlite3.IntegrityError] when the name is
    taken; the method then returns [False] and nothing is committed. *)
Definition add_category (d : db) (name cat_type icon : string) : bool * db :=
  if name_exists name (categories d)
  then (false, d)
  else (true,
        Db (insert Category.id (fun i => Category.Row i name cat_type icon)
              (categories d))
           (transactions d) (budgets d)).

(** The [UNIQUE(category, month, year)] constraint. *)
Definition same_key (category : string) (month year : Z) (r : Budget.row)
  : bool :=
  (Budget.category r =? category)
  && (Budget.month r =? month)%Z && (Budget.year r =? year)%Z.

(** [INSERT OR REPLACE]: the rows in conflict are deleted, then the new row
    is inserted under a fresh rowid. *)
Definition set_budget (d : db) (category : string) (amount : Q)
  (month year : Z) : db :=
  let t := budgets d in
  let i := next_rowid Budget.id t in
  Db (categories d) (transactions d)
     (Table (filter (fun r => negb (same_key category month year r)) (rows t)
             ++ [Budget.Row i category amount month year])
            i).

Definition get_budget (d : db) (category : string) (month year : Z)
  : option Q :=
  match filter (same_key category month year) (rows (budgets d)) with
  | result :: _ => Some (Budget.amount result)
  | [] => None
  end.

Definition get_all_budgets (d : db) (month year : Z) : list (string * Q) :=
  map (fun r => (Budget.category r, Budget.amount r))
    (filter (fun r => (Budget.month r =? month)%Z && (Budget.year r =? year)%Z)
       (rows (budgets d))).

(** ** REAL arithmetic *)

(** [n / d] rounded to the nearest integer, ties to the even one, for a
    positive [d]. *)
Definition round_half_even (n d : Z) : Z :=
  let q := (n / d)%Z in
  match (2 * (n mod d) ?= d)%Z with
  | Lt => q
  | Gt => (q + 1)%Z
  | Eq => if Z.even q then q else (q + 1)%Z
  end.

(** The double nearest to [x], ties to even: with [2^e1 <= |x| < 2^(e1+1)],
    the multiple of [2^e] nearest to [x] where [e = e1 - 52] (53 significant
    bits), and [e = -1074] for the subnormals below [2^-1022].  The
    hardware turns a result of magnitude 2^1024 or more into an infinity;
    the embedding does not go that far. *)
Definition binary64 (x : Q) : Q :=
  let x := Qred x in
  let n := Z.abs (Qnum x) in
  let d := Zpos (Qden x) in
  if (n =? 0)%Z then 0
  else
    let e0 := (Z.log2 n - Z.log2 d)%Z in
    let below := if (0 <=? e0)%Z then (n <? d * 2 ^ e0)%Z
                 else (n * 2 ^ (- e0) <? d)%Z in
    let e1 := if below then (e0 - 1)%Z else e0 in
    let e := Z.max (e1 - 52) (-1074) in
    let m := if (0 <=? e)%Z then round_half_even n (d * 2 ^ e)
             else round_half_even (n * 2 ^ (- e)) d in
    let m := if (Qnum x <? 0)%Z then (- m)%Z else m in
    Qred (if (0 <=? e)%Z then (m * 2 ^ e) # 1
          else m # Z.to_pos (2 ^ (- e))).

(** [SUM(amount)] over a group of rows: SQLite's [sumStep] adds each value
    to a double that starts at 0.0, in the order in which the rows of the
    group reach it, the order of their rowids.  (Recent versions of SQLite
    also carry a correction term for the rounding errors; the result is a
    double all the same.) *)
Definition SUM (l : list Q) : Q :=
  fold_left (fun total x => binary64 (total + x)) l 0.

(** [WHERE type = 'expense' AND date >= ? AND date <= ?]. *)
Definition expense_between (start_date end_date : string)
  (r : Transaction.row) : bool :=
  (Transaction.type r =? "expense")
  && (start_date <=? Transaction.date r)
  && (Transaction.date r <=? end_date).

(** [SELECT category, SUM(amount) ... GROUP BY category]: one output row per
    distinct category of the selected rows. *)
Definition group_by_category (l : list Transaction.row) : list (string * Q) :=
  map (fun c =>
         (c, SUM (map Transaction.amount
                    (filter (fun r => Transaction.category r =? c) l))))
      (nodup string_dec (map Transaction.category l)).

(** [ORDER BY total DESC]. *)
Definition total_desc (a b : string * Q) : bool :=
  Qle_bool (snd b) (snd a).

Definition get_spending_by_category (d : db) (start_date end_date : string)
  : list (string * Q) :=
  order_by total_desc
    (group_by_category
       (filter (expense_between start_date end_date) (rows (transactions d)))).

Definition clear_all_data (d : db) : db :=
  Db (categories d)
     (delete_all (transactions d))
     (delete_all (budgets d)).

(** ** Requests and reachable states *)

(** The calls that change the store.  [Init] is a later construction of
    [BudgetDatabase] on the same file; the reading methods leave the store
    as it is. *)
Inductive request : Type :=
| Init
| AddTransaction (amount : Q) (category description date trans_type : string)
| DeleteTransaction (trans_id : Z)
| AddCategory (name cat_type icon : string)
| SetBudget (category : string) (amount : Q) (month year : Z)
| ClearAllData.

Definition step (d : db) (q : request) : db :=
  match q with
  | Init => init_database (file_of d)
  | AddTransaction a c ds dt ty => add_transaction d a c ds dt ty
  | DeleteTransaction i => delete_transaction d i
  | AddCategory n ty ic => snd (add_category d n ty ic)
  | SetBudget c a m y => set_budget d c a m y
  | ClearAllData => clear_all_data d
  end.

Definition run (d : db) (l : list request) : db := fold_left step l d.

(** The store right after the first construction, on a file without tables. *)
Definition fresh : db := init_database empty_file.

(** Histories made of [add_transaction] and [delete_transaction] only. *)
Inductive tx_request : Type :=
| Add (amount : Q) (category description date trans_type : string)
| Delete (trans_id : Z).

Definition request_of (q : tx_request) : request :=
  match q with
  | Add a c ds dt ty => AddTransaction a c ds dt ty
  | Delete i => DeleteTransaction i
  end.

(** *** What a history leaves stored, read off the history alone

    The k-th inserted transaction carries id k, and it is stored at the end
    when no later call deletes that id. *)

Definition deleted_later (i : Z) (h : list tx_request) : bool :=
  existsb (fun q => match q with
                    | Delete j => (j =? i)%Z
                    | Add _ _ _ _ _ => false
                    end) h.

Fixpoint stored_from (i : Z) (h : list tx_request) : list Transaction.row :=
  match h with
  | [] => []
  | Add a c ds dt ty :: h' =>
      if deleted_later i h'
      then stored_from (i + 1) h'
      else Transaction.Row i a c ds dt ty :: stored_from (i + 1) h'
  | Delete _ :: h' => stored_from i h'
  end.

Definition stored (h : list tx_request) : list Transaction.row :=
  stored_from 1 h.

(** *** The filters of [get_transactions], read off the arguments

    A filter constrains the rows when its argument is given and is not the
    empty string. *)

Definition constrains (arg : option string) (test : string -> bool) : bool :=
  match arg with
  | Some s => if s =? "" then true else test s
  | None => true
  end.

Definition satisfies (start_date end_date trans_type category : option string)
  (r : Transaction.row) : bool :=
  constrains start_date (fun s => s <=? Transaction.date r)
  && constrains end_date (fun s => Transaction.date r <=? s)
  && constrains trans_type (fun s => Transaction.type r =? s)
  && constrains category (fun s => Transaction.category r =? s).

(** A filter read the other way: every argument that is given constrains
    the rows, the empty string included. *)
Definition satisfies_given (start_date end_date trans_type category : option string)
  (r : Transaction.row) : bool :=
  match start_date with Some s => s <=? Transaction.date r | None => true end
  && match end_date with Some s => Transaction.date r <=? s | None => true end
  && match trans_type with Some s => Transaction.type r =? s | None => true end
  && match category with Some s => Transaction.category r =? s | None => true end.

(** ** Invariants of the tables *)

(** Rowids are distinct and none exceeds the AUTOINCREMENT counter, which
    is never negative. *)
Definition well_keyed {R : Type} (rowid : R -> Z) (t : table R) : Prop :=
  NoDup (map rowid (rows t))
  /\ Forall (fun r => (rowid r <= seq t)%Z) (rows t)
  /\ (0 <= seq t)%Z.

Definition budget_key (r : Budget.row) : string * Z * Z :=
  (Budget.category r, Budget.month r, Budget.year r).

Definition consistent (d : db) : Prop :=
  well_keyed Category.id (categories d)
  /\ well_keyed Transaction.id (transactions d)
  /\ well_keyed Budget.id (budgets d)
  /\ NoDup (map Category.name (rows (categories d)))
  /\ NoDup (map budget_key (rows (budgets d))).

(** Equality of the stored rows, whatever the AUTOINCREMENT counters. *)
Definition same_rows (d d' : db) : Prop :=
  rows (categories d) = rows (categories d')
  /\ rows (transactions d) = rows (transactions d')
  /\ rows (budgets d) = rows (budgets d').

(** ** Vocabulary of the statements *)

(** The categories table keeps distinct rowids and distinct names. *)
Definition categories_ok (t : table Category.row) : Prop :=
  well_keyed Category.id t /\ NoDup (map Category.name (rows t)).

(** The [WHERE month = ? AND year = ?] of [get_all_budgets]. *)
Definition in_month (month year : Z) (r : Budget.row) : bool :=
  (Budget.month r =? month)%Z && (Budget.year r =? year)%Z.

(** A category row as the seed (name, type, icon) it was inserted from. *)
Definition seed_of (r : Category.row) : string * string * string :=
  (Category.name r, Category.type r, Category.icon r).

Definition seed_name (c : string * string * string) : string := fst (fst c).

(** The seeds [INSERT OR IGNORE] does not ignore. *)
Definition absent_from (t : table Category.row)
  (c : string * string * string) : bool :=
  negb (name_exists (seed_name c) t).

(** [add_transaction] and [delete_transaction] on the transactions table. *)
Definition tx_step (t : table Transaction.row) (q : tx_request)
  : table Transaction.row :=
  match q with
  | Add a c ds dt ty =>
      insert Transaction.id (fun i => Transaction.Row i a c ds dt ty) t
  | Delete i => delete_where (fun r => (Transaction.id r =? i)%Z) t
  end.

(** An argument as [get_transactions] reads it: the empty string counts as
    no argument. *)
Definition omit_empty (arg : option string) : option string :=
  match arg with
  | Some s => if s =? "" then None else Some s
  | None => None
  end.

(** The [WHERE id = ?] of [delete_transaction]. *)
Definition has_id (trans_id : Z) (r : Transaction.row) : bool :=
  (Transaction.id r =? trans_id)%Z.

(** The categories a type argument selects: all of them when it is omitted
    or empty, those of the type otherwise. *)
Definition type_selected (cat_type : option string) (r : Category.row)
  : bool :=
  constrains cat_type (fun t => Category.type r =? t).

(** What a caller can read from the store. *)
Inductive query : Type :=
| GetTransactions (start_date end_date trans_type category : option string)
| GetCategories (cat_type : option string)
| GetBudget (category : string) (month year : Z)
| GetAllBudgets (month year : Z)
| GetSpendingByCategory (start_date end_date : string).

Inductive answer : Type :=
| TransactionRows (l : list Transaction.row)
| CategoryLabels (l : list string)
| BudgetAmount (a : option Q)
| BudgetRows (l : list (string * Q))
| SpendingRows (l : list (string * Q)).

Definition ask (d : db) (q : query) : answer :=
  match q with
  | GetTransactions sd ed ty cat => TransactionRows (get_transactions d sd ed ty cat)
  | GetCategories ty => CategoryLabels (get_categories d ty)
  | GetBudget c m y => BudgetAmount (get_budget d c m y)
  | GetAllBudgets m y => BudgetRows (get_all_budgets d m y)
  | GetSpendingByCategory sd ed => SpendingRows (get_spending_by_category d sd ed)
  end.

(** Two stores a caller cannot tell apart: the same transactions and
    budgets, and the same categories up to their rowids, which no method
    reads. *)
Definition alike (d d' : db) : Prop :=
  map seed_of (rows (categories d)) = map seed_of (rows (categories d'))
  /\ transactions d = transactions d'
  /\ budgets d = budgets d'.

(** [label] and [name_asc] on seeds. *)
Definition seed_label (c : string * string * string) : string :=
  snd c ++ " " ++ seed_name c.

Definition seed_name_asc (c c' : string * string * string) : bool :=
  seed_name c <=? seed_name c'.

(** The scenario of the specification: a salary of 50000 on 2024-01-05 and
    a meal of 1200 on 2024-01-10, on a freshly initialized store. *)
Definition scenario : db :=
  run fresh
    [ AddTransaction 50000 "Salary" "" "2024-01-05" "income";
      AddTransaction 1200 "Food & Dining" "" "2024-01-10" "expense" ].

(** ** The presentation layer ([app.py])

    The parts of the page script that compute with what the store returns.
    Widgets, charts and the formatting of amounts are left out. *)

(** [x.split(' ', 1)[1]] when [' ' in x]: what follows the first space.
    Python splits on the character U+0020, whose UTF-8 encoding is the one
    byte 32, and that byte occurs in no other character's encoding. *)
Fixpoint after_first_space (x : string) : option string :=
  match x with
  | EmptyString => None
  | String c rest =>
      if (c =? " ")%char then Some rest else after_first_space rest
  end.

(** [clean_category = x.split(' ', 1)[1] if ' ' in x else x]. *)
Definition clean_category (x : string) : string :=
  match after_first_space x with
  | Some rest => rest
  | None => x
  end.

(** The sidebar's "Last Month": [today.month - 1 if today.month > 1 else 12]
    and [today.year if today.month > 1 else today.year - 1]. *)
Definition last_month_of (month year : Z) : Z * Z :=
  (if (month >? 1)%Z then (month - 1)%Z else 12%Z,
   if (month >? 1)%Z then year else (year - 1)%Z).

(** [calendar.isleap]. *)
Definition isleap (year : Z) : bool :=
  (year mod 4 =? 0)%Z
  && (negb (year mod 100 =? 0)%Z || (year mod 400 =? 0)%Z).

(** [calendar.mdays]. *)
Definition mdays : list Z := [0; 31; 28; 31; 30; 31; 30; 31; 31; 30; 31; 30; 31]%Z.

(** [calendar.monthrange(year, month)[1]], for a month from 1 to 12. *)
Definition monthrange_days (year month : Z) : Z :=
  (nth (Z.to_nat month) mdays 0
   + if (month =? 2)%Z && isleap year then 1 else 0)%Z.

(** [datetime(year, month, day)]: the three fields, or [None] for the
    [ValueError] raised outside years 1 to 9999, months 1 to 12 and the
    days of the month. *)
Definition datetime (year month day : Z) : option (Z * Z * Z) :=
  if (1 <=? year)%Z && (year <=? 9999)%Z
     && (1 <=? month)%Z && (month <=? 12)%Z
     && (1 <=? day)%Z && (day <=? monthrange_days year month)%Z
  then Some (year, month, day)
  else None.

Definition digit (d : Z) : ascii := ascii_of_N (Z.to_N (48 + d)).

Definition two_digits (n : Z) : string :=
  String (digit (n / 10)) (String (digit (n mod 10)) EmptyString).

Definition four_digits (n : Z) : string :=
  String (digit (n / 1000))
    (String (digit (n / 100 mod 10)) (two_digits (n mod 100))).

(** [%Y].  From year 1000 on it is the four digits of the year on every
    platform.  Below, the C library decides: [zero_padded] tells whether it
    pads the year with zeros to four digits or writes it as it is, as on
    Linux. *)
Definition year_text (zero_padded : bool) (year : Z) : string :=
  if (1000 <=? year)%Z || zero_padded then four_digits year
  else if (100 <=? year)%Z
       then String (digit (year / 100)) (two_digits (year mod 100))
       else if (10 <=? year)%Z then two_digits year
            else String (digit year) EmptyString.

(** [strftime('%Y-%m-%d')]. *)
Definition strftime (zero_padded : bool) (t : Z * Z * Z) : string :=
  let '(year, month, day) := t in
  year_text zero_padded year ++ "-" ++ two_digits month
  ++ "-" ++ two_digits day.

Definition get_month_date_range (zero_padded : bool) (month year : Z)
  : option (string * string) :=
  match datetime year month 1 with
  | None => None
  | Some first =>
      let start_date := strftime zero_padded first in
      let last_day := monthrange_days year month in
      match datetime year month last_day with
      | None => None
      | Some last => Some (start_date, strftime zero_padded last)
      end
  end.

(** The sidebar's "This Year": [datetime(today.year, 1, 1)] and
    [datetime(today.year, 12, 31)], each through [strftime]. *)
Definition this_year_range (zero_padded : bool) (year : Z)
  : option (string * string) :=
  match datetime year 1 1, datetime year 12 31 with
  | Some first, Some last =>
      Some (strftime zero_padded first, strftime zero_padded last)
  | _, _ => None
  end.

(** The dashboard's [transactions[transactions['type'] == t]]: the rows of
    the frame with that type, in the order of the frame.  The sum pandas
    takes of their amounts is not modelled. *)
Definition of_type (t : string) (transactions : list Transaction.row)
  : list Transaction.row :=
  filter (fun r => Transaction.type r =? t) transactions.

(** [transactions.head(10)], the dashboard's recent transactions. *)
Definition recent (transactions : list Transaction.row)
  : list Transaction.row :=
  firstn 10 transactions.

(** [dict(zip(existing_budgets['category'], existing_budgets['amount']))]
    followed by [budget_dict.get(category, 0.0)]: of several pairs with the
    same key the dictionary keeps the last. *)
Fixpoint dict_get (pairs : list (string * Q)) (key : string) (default : Q)
  : Q :=
  match pairs with
  | [] => default
  | (k, v) :: rest =>
      if k =? key then dict_get rest key v else dict_get rest key default
  end.

(** The value the budget form shows for a category. *)
Definition current_budget (d : db) (month year : Z) (clean : string) : Q :=
  dict_get (get_all_budgets d month year) clean 0.

(** The loop of the budget form over [budget_values.items()]: a budget is
    saved for every category whose amount is positive. *)
Definition save_budgets (d : db) (budget_values : list (string * Q))
  (month year : Z) : db :=
  fold_left
    (fun d ca =>
       if Qle_bool (snd ca) 0 then d
       else set_budget d (fst ca) (snd ca) month year)
    budget_values d.

(** The submit branch of the income and expense forms: nothing is stored
    unless the amount is positive; the category stored is the chosen label
    cleaned. *)
Definition submit_transaction (d : db) (amount : Q)
  (chosen description date trans_type : string) : db :=
  if Qle_bool amount 0 then d
  else add_transaction d amount (clean_category chosen) description date
         trans_type.





(** ** The arithmetic of the specification *)




(** An icon without a space. *)
Definition spaceless (icon : string) : bool :=
  match after_first_space icon with
  | Some _ => false
  | None => true
  end.

(** The icons a list of requests gives to [add_category]. *)
Definition added_icons (l : list request) : list string :=
  flat_map (fun q => match q with
                     | AddCategory _ _ icon => [icon]
                     | _ => []
                     end) l.

(** * Properties *)

(** ** The model at work *)

Example scenario_january :
  get_transactions scenario (Some "2024-01-01") (Some "2024-01-31") None None
  = [ Transaction.Row 2 1200 "Food & Dining" "" "2024-01-10" "expense";
      Transaction.Row 1 50000 "Salary" "" "2024-01-05" "income" ].
Proof. vm_compute. reflexivity. Qed.

Example scenario_february :
  get_transactions scenario (Some "2024-02-01") (Some "2024-02-29") None None
  = [].
Proof. vm_compute. reflexivity. Qed.

Example scenario_spending :
  get_spending_by_category scenario "2024-01-01" "2024-01-31"
  = [("Food & Dining", 1200)].
Proof. vm_compute. reflexivity. Qed.

Example scenario_income_categories :
  get_categories scenario (Some "income")
  = ["💼 Freelance"; "🎁 Gift"; "📈 Investment"; "💵 Other Income"; "💰 Salary"].
Proof. vm_compute. reflexivity. Qed.

Example scenario_budget :
  let d := set_budget (set_budget scenario "Shopping" 300 1 2024)
             "Shopping" 450 1 2024 in
  get_all_budgets d 1 2024 = [("Shopping", 450)]
  /\ get_budget d "Shopping" 1 2024 = Some 450
  /\ get_budget d "Shopping" 2 2024 = None.
Proof. vm_compute. repeat split. Qed.

Example scenario_duplicate_category :
  fst (add_category scenario "Salary" "income" "💰") = false
  /\ fst (add_category scenario "Pets" "expense" "🐕") = true.
Proof. vm_compute. split; reflexivity. Qed.

(** ** [order_by] permutes and sorts *)

Section OrderByFacts.
Context {A : Type} (leb : A -> A -> bool).
Hypothesis leb_total : forall x y, leb x y = true \/ leb y x = true.

Lemma insert_sorted_perm (x : A) (l : list A) :
  Permutation (insert_sorted leb x l) (x :: l).
Proof.
  induction l as [|y l IH]; simpl.
  - reflexivity.
  - destruct (leb x y).
    + reflexivity.
    + rewrite IH. apply perm_swap.
Qed.

Lemma order_by_perm (l : list A) : Permutation (order_by leb l) l.
Proof.
  induction l as [|x l IH]; simpl.
  - constructor.
  - rewrite insert_sorted_perm. now constructor.
Qed.

Lemma insert_sorted_hd (x z : A) (l : list A) :
  leb z x = true -> HdRel (fun a b => leb a b = true) z l ->
  HdRel (fun a b => leb a b = true) z (insert_sorted leb x l).
Proof.
  intros Hzx Hzl. destruct l as [|y l]; simpl.
  - now constructor.
  - destruct (leb x y); constructor; trivial.
    now inversion Hzl.
Qed.

Lemma insert_sorted_sorted (x : A) (l : list A) :
  Sorted (fun a b => leb a b = true) l ->
  Sorted (fun a b => leb a b = true) (insert_sorted leb x l).
Proof.
  induction 1 as [|y l Hs IH Hhd]; simpl.
  - repeat constructor.
  - destruct (leb x y) eqn:E.
    + constructor; [now constructor | now constructor].
    + constructor; trivial.
      apply insert_sorted_hd; trivial.
      destruct (leb_total x y); congruence.
Qed.

Lemma order_by_sorted (l : list A) :
  Sorted (fun a b => leb a b = true) (order_by leb l).
Proof.
  induction l as [|x l IH]; simpl.
  - constructor.
  - now apply insert_sorted_sorted.
Qed.

Lemma order_by_length (l : list A) :
  List.length (order_by leb l) = List.length l.
Proof. apply Permutation_length, order_by_perm. Qed.

End OrderByFacts.

(** With a transitive comparison, every element of the result is below all
    the elements that follow it. *)
Lemma order_by_strongly_sorted {A : Type} (leb : A -> A -> bool) (l : list A) :
  (forall x y, leb x y = true \/ leb y x = true) ->
  (forall x y z, leb x y = true -> leb y z = true -> leb x z = true) ->
  StronglySorted (fun a b => leb a b = true) (order_by leb l).
Proof.
  intros Htotal Htrans. apply Sorted_StronglySorted.
  - intros x y z. apply Htrans.
  - now apply order_by_sorted.
Qed.


(** ** The byte-wise order on TEXT values *)

Lemma string_leb_cons (a b : ascii) (s t : string) :
  (String a s <=? String b t) = true <->
  (N_of_ascii a < N_of_ascii b)%N \/ (a = b /\ (s <=? t) = true).
Proof.
  unfold String.leb. cbn [String.compare]. unfold Ascii.compare.
  destruct (N.compare_spec (N_of_ascii a) (N_of_ascii b)) as [E|E|E].
  - apply (f_equal ascii_of_N) in E. rewrite !ascii_N_embedding in E. subst b.
    split; [now right | intros [H|[_ H]]; [lia | exact H]].
  - split; [now left | reflexivity].
  - split; [discriminate | intros [H|[-> _]]; lia].
Qed.

Lemma string_leb_trans (s1 s2 s3 : string) :
  (s1 <=? s2) = true -> (s2 <=? s3) = true -> (s1 <=? s3) = true.
Proof.
  revert s2 s3. induction s1 as [|a s1 IH]; intros [|b s2] [|c s3];
    try reflexivity; try discriminate.
  rewrite !string_leb_cons. intros [H|[-> H]] [H'|[-> H']].
  - left. lia.
  - now left.
  - now left.
  - right. split; trivial. now apply (IH s2).
Qed.

(** ** Filtering lists *)

Lemma filter_none {A : Type} (p : A -> bool) (l : list A) :
  (forall x, In x l -> p x = false) -> filter p l = [].
Proof.
  induction l as [|x l IH]; simpl; intros H; trivial.
  rewrite (H x) by now left. apply IH. intros y Hy. apply H. now right.
Qed.

Lemma filter_all {A : Type} (p : A -> bool) (l : list A) :
  (forall x, In x l -> p x = true) -> filter p l = l.
Proof.
  induction l as [|x l IH]; simpl; intros H; trivial.
  rewrite (H x) by now left. f_equal. apply IH. intros y Hy. apply H. now right.
Qed.

Lemma filter_filter {A : Type} (p q : A -> bool) (l : list A) :
  filter p (filter q l) = filter (fun x => q x && p x) l.
Proof.
  induction l as [|x l IH]; simpl; trivial.
  destruct (q x); simpl; [destruct (p x)|]; now rewrite IH.
Qed.

Lemma filter_partition_length {A : Type} (p : A -> bool) (l : list A) :
  List.length l
  = (List.length (filter (fun x => negb (p x)) l)
     + List.length (filter p l))%nat.
Proof.
  induction l as [|x l IH]; simpl; trivial.
  destruct (p x); simpl; lia.
Qed.

Lemma NoDup_map_filter {R K : Type} (key : R -> K) (keep : R -> bool) :
  forall table_rows : list R,
    NoDup (map key table_rows) -> NoDup (map key (filter keep table_rows)).
Proof.
  intros table_rows. induction table_rows as [|x l IH]; simpl; intros H.
  - constructor.
  - inversion H as [|? ? Hnotin Hnd]; subst.
    destruct (keep x); simpl; auto.
    constructor; auto.
    intros Hin. apply Hnotin. apply in_map_iff in Hin.
    destruct Hin as (y & Hy & Hin). apply filter_In in Hin.
    apply in_map_iff. exists y. tauto.
Qed.

Lemma NoDup_snoc {A : Type} (l : list A) (x : A) :
  NoDup l -> ~ In x l -> NoDup (l ++ [x]).
Proof.
  intros Hnd Hx. apply NoDup_app; trivial.
  - repeat constructor. simpl. tauto.
  - intros y Hy [<-|[]]. contradiction.
Qed.

(** ** Sums without rounding *)







(** ** Rounding to a double *)












(** ** The totals of [get_spending_by_category] *)


Lemma group_by_category_fst (l : list Transaction.row) :
  map fst (group_by_category l) = nodup string_dec (map Transaction.category l).
Proof.
  unfold group_by_category. rewrite map_map. simpl. apply map_id.
Qed.




(** ** The invariants hold in every reachable state *)

Section AutoincrementFacts.
Context {R : Type} (rowid : R -> Z).

Lemma max_rowid_ge (l : list R) (r : R) :
  In r l -> (rowid r <= max_rowid rowid l)%Z.
Proof.
  unfold max_rowid. induction l as [|x l IH]; simpl; intros H.
  - contradiction.
  - destruct H as [->|H]; [lia|]. specialize (IH H). lia.
Qed.

Lemma next_rowid_fresh (t : table R) (r : R) :
  In r (rows t) -> (rowid r < next_rowid rowid t)%Z.
Proof.
  intros H. apply max_rowid_ge in H. unfold next_rowid. lia.
Qed.

Lemma max_rowid_nonneg (l : list R) : (0 <= max_rowid rowid l)%Z.
Proof. unfold max_rowid. induction l; simpl; lia. Qed.

Lemma max_rowid_le (l : list R) (s : Z) :
  (0 <= s)%Z -> Forall (fun r => (rowid r <= s)%Z) l ->
  (max_rowid rowid l <= s)%Z.
Proof.
  intros Hs. unfold max_rowid. induction 1 as [|x l Hx _ IH]; simpl; lia.
Qed.

Lemma next_rowid_seq (t : table R) :
  well_keyed rowid t -> next_rowid rowid t = (seq t + 1)%Z.
Proof.
  intros (_ & Hle & Hs). unfold next_rowid.
  pose proof (max_rowid_le _ _ Hs Hle). lia.
Qed.

Lemma well_keyed_rows_seq (l : list R) (s : Z) :
  NoDup (map rowid l) -> (forall r, In r l -> (rowid r <= s)%Z) ->
  (0 <= s)%Z -> well_keyed rowid (Table l s).
Proof.
  intros Hnd Hle Hs. repeat split; simpl; trivial. now apply Forall_forall.
Qed.

Lemma next_rowid_pos (t : table R) : (0 <= next_rowid rowid t)%Z.
Proof.
  unfold next_rowid. pose proof (max_rowid_nonneg (rows t)). lia.
Qed.

Lemma well_keyed_snoc (t : table R) (l : list R) (mk : Z -> R) :
  (forall i, rowid (mk i) = i) ->
  NoDup (map rowid l) -> incl l (rows t) ->
  well_keyed rowid (Table (l ++ [mk (next_rowid rowid t)]) (next_rowid rowid t)).
Proof.
  intros Hmk Hnd Hincl. apply well_keyed_rows_seq.
  - rewrite map_app. simpl. apply NoDup_snoc; trivial.
    rewrite Hmk. intros Hin. apply in_map_iff in Hin.
    destruct Hin as (r & Hr & Hin).
    apply Hincl, next_rowid_fresh in Hin. lia.
  - intros r Hin. apply in_app_or in Hin. destruct Hin as [Hin|[<-|[]]].
    + apply Hincl, next_rowid_fresh in Hin. lia.
    + rewrite Hmk. lia.
  - apply next_rowid_pos.
Qed.

Lemma well_keyed_insert (t : table R) (mk : Z -> R) :
  (forall i, rowid (mk i) = i) ->
  well_keyed rowid t -> well_keyed rowid (insert rowid mk t).
Proof.
  intros Hmk [Hnd _]. unfold insert.
  apply well_keyed_snoc; trivial. apply incl_refl.
Qed.

Lemma well_keyed_insert_ignored (t : table R) :
  well_keyed rowid t -> well_keyed rowid (insert_ignored rowid t).
Proof.
  intros [Hnd _]. apply well_keyed_rows_seq; trivial.
  - intros r Hin. apply next_rowid_fresh in Hin. lia.
  - apply next_rowid_pos.
Qed.

Lemma well_keyed_delete_where (p : R -> bool) (t : table R) :
  well_keyed rowid t -> well_keyed rowid (delete_where p t).
Proof.
  intros (Hnd & Hle & Hs). apply well_keyed_rows_seq; trivial.
  - now apply NoDup_map_filter.
  - intros r Hin. apply filter_In in Hin.
    rewrite Forall_forall in Hle. now apply Hle.
Qed.

Lemma well_keyed_delete_all (t : table R) :
  well_keyed rowid t -> well_keyed rowid (delete_all t).
Proof.
  intros (_ & _ & Hs).
  apply well_keyed_rows_seq; [constructor | intros r [] | exact Hs].
Qed.

Lemma well_keyed_empty : well_keyed rowid empty_table.
Proof.
  apply well_keyed_rows_seq; [constructor | intros r [] | reflexivity].
Qed.

End AutoincrementFacts.

Lemma name_exists_true (n : string) (t : table Category.row) :
  name_exists n t = true <-> In n (map Category.name (rows t)).
Proof.
  unfold name_exists. rewrite existsb_exists, in_map_iff.
  split; intros (r & H1 & H2); exists r.
  - apply String.eqb_eq in H2. tauto.
  - split; trivial. now apply String.eqb_eq.
Qed.

Lemma name_exists_false (n : string) (t : table Category.row) :
  name_exists n t = false <-> ~ In n (map Category.name (rows t)).
Proof.
  rewrite <- name_exists_true. destruct (name_exists n t); intuition congruence.
Qed.

Lemma same_key_true (c : string) (m y : Z) (r : Budget.row) :
  same_key c m y r = true <-> budget_key r = (c, m, y).
Proof.
  unfold same_key, budget_key.
  rewrite !andb_true_iff, String.eqb_eq, !Z.eqb_eq.
  split; [intros [[-> ->] ->]; reflexivity | intros [= -> -> ->]; tauto].
Qed.

Lemma insert_category_ok (t : table Category.row) (n ty ic : string) :
  categories_ok t -> name_exists n t = false ->
  categories_ok (insert Category.id (fun i => Category.Row i n ty ic) t).
Proof.
  intros [Hk Hn] Hfree. split.
  - now apply well_keyed_insert.
  - simpl. rewrite map_app. simpl. apply NoDup_snoc; trivial.
    now apply name_exists_false.
Qed.

Lemma insert_or_ignore_category_ok (t : table Category.row)
  (c : string * string * string) :
  categories_ok t -> categories_ok (insert_or_ignore_category t c).
Proof.
  destruct c as [[n ty] ic]. intros H. unfold insert_or_ignore_category.
  destruct (name_exists n t) eqn:E.
  - destruct H as [Hk Hn]. split; trivial.
    now apply well_keyed_insert_ignored.
  - now apply insert_category_ok.
Qed.

Lemma seed_categories_ok (l : list (string * string * string))
  (t : table Category.row) :
  categories_ok t -> categories_ok (fold_left insert_or_ignore_category l t).
Proof.
  revert t. induction l as [|c l IH]; simpl; intros t H; trivial.
  apply IH. now apply insert_or_ignore_category_ok.
Qed.

Lemma consistent_intro (d : db) :
  categories_ok (categories d) ->
  well_keyed Transaction.id (transactions d) ->
  well_keyed Budget.id (budgets d) ->
  NoDup (map budget_key (rows (budgets d))) ->
  consistent d.
Proof. intros [Hk Hn] Ht Hb Hu. unfold consistent. tauto. Qed.

Lemma consistent_fresh : consistent fresh.
Proof.
  apply consistent_intro.
  - apply (seed_categories_ok default_categories empty_table).
    split; [apply well_keyed_empty | constructor].
  - apply well_keyed_empty.
  - apply well_keyed_empty.
  - constructor.
Qed.

Lemma consistent_step (d : db) (q : request) :
  consistent d -> consistent (step d q).
Proof.
  intros (Hc & Ht & Hb & Hn & Hu).
  assert (Hcn : categories_ok (categories d)) by now split.
  destruct q as [|a c ds dt ty|i|n ty ic|c a m y|].
  - apply consistent_intro; trivial.
    now apply (seed_categories_ok default_categories (categories d)).
  - apply consistent_intro; trivial.
    now apply (well_keyed_insert Transaction.id (transactions d)).
  - apply consistent_intro; trivial.
    now apply (well_keyed_delete_where Transaction.id _ (transactions d)).
  - unfold step, add_category.
    destruct (name_exists n (categories d)) eqn:E.
    + now apply consistent_intro.
    + apply consistent_intro; trivial.
      now apply (insert_category_ok (categories d)).
  - apply consistent_intro; trivial.
    + apply (well_keyed_snoc Budget.id (budgets d) _
               (fun i => Budget.Row i c a m y)); trivial.
      * now apply NoDup_map_filter, Hb.
      * intros r Hr. now apply filter_In in Hr.
    + cbn [step set_budget budgets rows]. rewrite map_app.
      apply NoDup_snoc.
      * now apply NoDup_map_filter.
      * intros Hin. apply in_map_iff in Hin. destruct Hin as (r & Hr & Hin).
        apply filter_In in Hin. destruct Hin as [_ Hin].
        change (budget_key r = (c, m, y)) in Hr.
        apply same_key_true in Hr. now rewrite Hr in Hin.
  - apply consistent_intro; trivial.
    + now apply (well_keyed_delete_all Transaction.id (transactions d)).
    + now apply (well_keyed_delete_all Budget.id (budgets d)).
    + constructor.
Qed.

Lemma consistent_run (l : list request) (d : db) :
  consistent d -> consistent (run d l).
Proof.
  revert d. unfold run. induction l as [|q l IH]; simpl; intros d H; trivial.
  apply IH. now apply consistent_step.
Qed.

(** ** Budgets: one row per (category, month, year) *)

Lemma same_key_in_month (c : string) (m y : Z) (r : Budget.row) :
  same_key c m y r = true -> in_month m y r = true.
Proof.
  unfold same_key, in_month. rewrite !andb_true_iff. tauto.
Qed.

Lemma filter_same_key_nil (c : string) (m y : Z) (l : list Budget.row) :
  ~ In (c, m, y) (map budget_key l) -> filter (same_key c m y) l = [].
Proof.
  induction l as [|r l IH]; simpl; intros H; trivial.
  destruct (same_key c m y r) eqn:E.
  - apply same_key_true in E. tauto.
  - apply IH. tauto.
Qed.

Lemma filter_same_key_unique (c : string) (m y : Z) (l : list Budget.row) :
  NoDup (map budget_key l) ->
  (List.length (filter (same_key c m y) l) <= 1)%nat.
Proof.
  induction l as [|r l IH]; simpl; intros H; [lia|].
  inversion H as [|? ? Hnotin Hnd]; subst.
  destruct (same_key c m y r) eqn:E.
  - apply same_key_true in E. rewrite E in Hnotin.
    rewrite filter_same_key_nil by assumption. simpl. lia.
  - now apply IH.
Qed.

Lemma filter_replaced (c : string) (m y : Z) (l : list Budget.row) :
  filter (same_key c m y) (filter (fun r => negb (same_key c m y r)) l) = [].
Proof.
  induction l as [|r l IH]; simpl; trivial.
  destruct (same_key c m y r) eqn:E; simpl; trivial. now rewrite E.
Qed.

Lemma filter_kept (c : string) (m y : Z) (l : list Budget.row) :
  filter (fun r => negb (same_key c m y r))
    (filter (fun r => negb (same_key c m y r)) l)
  = filter (fun r => negb (same_key c m y r)) l.
Proof.
  induction l as [|r l IH]; simpl; trivial.
  destruct (same_key c m y r) eqn:E; simpl; trivial. now rewrite E, IH.
Qed.

Lemma same_key_refl (i : Z) (c : string) (a : Q) (m y : Z) :
  same_key c m y (Budget.Row i c a m y) = true.
Proof. now apply same_key_true. Qed.

(** The rows of the key right after [set_budget]: the new row alone. *)
Lemma set_budget_key_rows (d : db) (c : string) (a : Q) (m y : Z) :
  filter (same_key c m y) (rows (budgets (set_budget d c a m y)))
  = [Budget.Row (next_rowid Budget.id (budgets d)) c a m y].
Proof.
  cbn [set_budget budgets rows]. rewrite filter_app, filter_replaced.
  cbn [filter app]. now rewrite same_key_refl.
Qed.

Lemma in_month_split (c : string) (m y : Z) (l : list Budget.row) :
  List.length (filter (in_month m y) l)
  = (List.length
       (filter (in_month m y) (filter (fun r => negb (same_key c m y r)) l))
     + List.length (filter (same_key c m y) l))%nat.
Proof.
  induction l as [|r l IH]; simpl; trivial.
  destruct (same_key c m y r) eqn:E; simpl.
  - rewrite (same_key_in_month _ _ _ _ E). simpl. lia.
  - destruct (in_month m y r); simpl; lia.
Qed.

Lemma get_all_budgets_length (d : db) (m y : Z) :
  List.length (get_all_budgets d m y)
  = List.length (filter (in_month m y) (rows (budgets d))).
Proof. unfold get_all_budgets. now rewrite length_map. Qed.

Lemma set_budget_count (d : db) (c : string) (a : Q) (m y : Z) :
  (List.length (get_all_budgets (set_budget d c a m y) m y)
   + List.length (filter (same_key c m y) (rows (budgets d))))%nat
  = S (List.length (get_all_budgets d m y)).
Proof.
  rewrite !get_all_budgets_length.
  rewrite (in_month_split c m y (rows (budgets d))).
  cbn [set_budget budgets rows]. rewrite filter_app, length_app.
  cbn [filter]. rewrite (same_key_in_month c m y _ (same_key_refl _ c a m y)).
  simpl. lia.
Qed.

(** C4: in every state reached from the first initialization by any
    sequence of requests, no two budget rows share their (category, month,
    year), so a key selects at most one row; and after [set_budget] the key
    selects exactly one row. *)
Theorem budget_key_unique (l : list request) :
  let d := run fresh l in
  NoDup (map budget_key (rows (budgets d)))
  /\ (forall c m y,
        (List.length (filter (same_key c m y) (rows (budgets d))) <= 1)%nat)
  /\ (forall c a m y,
        List.length
          (filter (same_key c m y) (rows (budgets (set_budget d c a m y))))
        = 1%nat).
Proof.
  intros d.
  assert (H : NoDup (map budget_key (rows (budgets d)))).
  { apply (consistent_run l fresh consistent_fresh). }
  split; [exact H | split].
  - intros c m y. now apply filter_same_key_unique.
  - intros c a m y. now rewrite set_budget_key_rows.
Qed.

(** C3: [set_budget] is an upsert.  In every reachable state, the call
    leaves exactly one row for the key, holding the given amount, and the
    number of rows [get_all_budgets] returns for the month grows by one when
    the key was absent and stays the same when it was present; a second call
    with the same arguments leaves the same budgets; a second call with
    another amount keeps the number of rows and stores the new amount. *)
Theorem set_budget_upsert (l : list request) (c : string) (a a' : Q) (m y : Z) :
  let d := run fresh l in
  let d1 := set_budget d c a m y in
  let d2 := set_budget d1 c a m y in
  let d3 := set_budget d1 c a' m y in
  (exists i, filter (same_key c m y) (rows (budgets d1)) = [Budget.Row i c a m y])
  /\ get_budget d1 c m y = Some a
  /\ List.length (get_all_budgets d1 m y)
     = match get_budget d c m y with
       | Some _ => List.length (get_all_budgets d m y)
       | None => S (List.length (get_all_budgets d m y))
       end
  /\ (exists i, filter (same_key c m y) (rows (budgets d2)) = [Budget.Row i c a m y])
  /\ get_budget d2 c m y = Some a
  /\ get_all_budgets d2 m y = get_all_budgets d1 m y
  /\ (forall m' y', get_all_budgets d2 m' y' = get_all_budgets d1 m' y')
  /\ (exists i, filter (same_key c m y) (rows (budgets d3)) = [Budget.Row i c a' m y])
  /\ get_budget d3 c m y = Some a'
  /\ List.length (get_all_budgets d3 m y) = List.length (get_all_budgets d1 m y).
Proof.
  intros d d1 d2 d3.
  assert (Hu : NoDup (map budget_key (rows (budgets d)))).
  { apply (consistent_run l fresh consistent_fresh). }
  assert (Hsame : forall b m' y',
            get_all_budgets (set_budget d1 c b m y) m' y'
            = map (fun r => (Budget.category r, Budget.amount r))
                (filter (fun r => (Budget.month r =? m')%Z && (Budget.year r =? y')%Z)
                   (filter (fun r => negb (same_key c m y r)) (rows (budgets d))
                    ++ [Budget.Row 0 c b m y]))).
  { intros b m' y'. unfold get_all_budgets, d1.
    cbn [set_budget budgets rows].
    rewrite !filter_app, filter_kept. cbn [filter].
    rewrite same_key_refl.
    cbn [negb filter app Budget.month Budget.year]. rewrite app_nil_r.
    destruct ((m =? m')%Z && (y =? y')%Z); now rewrite !map_app. }
  assert (Hd1 : forall m' y',
            get_all_budgets d1 m' y'
            = map (fun r => (Budget.category r, Budget.amount r))
                (filter (fun r => (Budget.month r =? m')%Z && (Budget.year r =? y')%Z)
                   (filter (fun r => negb (same_key c m y r)) (rows (budgets d))
                    ++ [Budget.Row 0 c a m y]))).
  { intros m' y'. unfold get_all_budgets, d1. cbn [set_budget budgets rows].
    rewrite !filter_app. cbn [filter Budget.month Budget.year].
    destruct ((m =? m')%Z && (y =? y')%Z); now rewrite !map_app. }
  repeat split.
  - eexists. apply set_budget_key_rows.
  - unfold get_budget, d1. now rewrite set_budget_key_rows.
  - pose proof (set_budget_count d c a m y) as Hc.
    pose proof (filter_same_key_unique c m y _ Hu) as Hle.
    fold d1 in Hc. unfold get_budget.
    destruct (filter (same_key c m y) (rows (budgets d))); simpl in *; lia.
  - eexists. apply set_budget_key_rows.
  - unfold get_budget, d2. now rewrite set_budget_key_rows.
  - unfold d2. now rewrite Hsame, Hd1.
  - intros m' y'. unfold d2. now rewrite Hsame, Hd1.
  - eexists. apply set_budget_key_rows.
  - unfold get_budget, d3. now rewrite set_budget_key_rows.
  - pose proof (set_budget_count d1 c a' m y) as Hc.
    assert (Hk : List.length (filter (same_key c m y) (rows (budgets d1)))
                 = 1%nat).
    { unfold d1. now rewrite set_budget_key_rows. }
    rewrite Hk in Hc. unfold d3. lia.
Qed.

(** ** [init_database] *)

Lemma name_exists_snoc (n : string) (l : list Category.row) (s s' : Z)
  (r : Category.row) :
  name_exists n (Table (l ++ [r]) s)
  = name_exists n (Table l s') || (Category.name r =? n).
Proof.
  unfold name_exists. cbn [rows]. rewrite existsb_app. simpl.
  now rewrite orb_false_r.
Qed.

(** The loop over the seeds appends, in order, the seeds whose name the
    table does not hold yet, and leaves the rows it found in place. *)
Lemma seed_categories_rows (l : list (string * string * string))
  (t : table Category.row) :
  NoDup (map seed_name l) ->
  exists new,
    rows (fold_left insert_or_ignore_category l t) = rows t ++ new
    /\ map seed_of new = filter (absent_from t) l.
Proof.
  revert t. induction l as [|c l IH]; intros t Hnd.
  - exists []. simpl. now rewrite app_nil_r.
  - inversion Hnd as [|? ? Hnotin Hnd']; subst.
    destruct c as [[n ty] ic].
    cbn [fold_left filter]. unfold absent_from at 1. cbn [seed_name fst].
    unfold insert_or_ignore_category at 2.
    destruct (name_exists n t) eqn:E; cbn [negb].
    + destruct (IH (insert_ignored Category.id t) Hnd') as (new & Hrows & Hnew).
      exists new. split; [exact Hrows | exact Hnew].
    + destruct (IH (insert Category.id (fun i => Category.Row i n ty ic) t) Hnd')
        as (new & Hrows & Hnew).
      exists (Category.Row (next_rowid Category.id t) n ty ic :: new).
      split.
      * rewrite Hrows. unfold insert. cbn [rows]. now rewrite <- app_assoc.
      * cbn [map]. unfold seed_of at 1. cbn.
        f_equal. rewrite Hnew. apply filter_ext_in.
        intros c Hc. unfold absent_from, insert.
        destruct t as [l0 s0]. cbn [rows seq].
        rewrite (name_exists_snoc _ l0 _ s0). cbn [Category.name].
        destruct (String.eqb_spec n (seed_name c)) as [->|_].
        -- exfalso. apply Hnotin. cbn [seed_name fst]. now apply in_map.
        -- now rewrite orb_false_r.
Qed.

Lemma default_categories_distinct : NoDup (map seed_name default_categories).
Proof.
  unfold default_categories. cbn [map seed_name fst].
  repeat (constructor; [cbn [In]; intuition discriminate|]). constructor.
Qed.

(** After the loop every seed name is in the table. *)
Lemma seed_categories_present (l : list (string * string * string))
  (t : table Category.row) (c : string * string * string) :
  NoDup (map seed_name l) -> In c l ->
  absent_from (fold_left insert_or_ignore_category l t) c = false.
Proof.
  intros Hnd Hc. destruct (seed_categories_rows l t Hnd) as (new & Hrows & Hnew).
  unfold absent_from. apply negb_false_iff, name_exists_true.
  rewrite Hrows, map_app. apply in_or_app.
  destruct (name_exists (seed_name c) t) eqn:E.
  - left. now apply name_exists_true.
  - right. assert (Hin : In c (map seed_of new)).
    { rewrite Hnew. apply filter_In. split; trivial.
      unfold absent_from. now rewrite E. }
    apply in_map_iff in Hin. destruct Hin as (r & <- & Hr).
    apply in_map_iff. exists r. split; trivial.
Qed.

(** *** Stores that differ in the rowids of categories answer alike *)

Lemma insert_sorted_map {A B : Type} (f : A -> B) (leb : A -> A -> bool)
  (leb' : B -> B -> bool) (x : A) (l : list A) :
  (forall a b, leb a b = leb' (f a) (f b)) ->
  map f (insert_sorted leb x l) = insert_sorted leb' (f x) (map f l).
Proof.
  intros H. induction l as [|y l IH]; simpl; trivial.
  rewrite <- H. destruct (leb x y); simpl; trivial. now rewrite IH.
Qed.

Lemma order_by_map {A B : Type} (f : A -> B) (leb : A -> A -> bool)
  (leb' : B -> B -> bool) (l : list A) :
  (forall a b, leb a b = leb' (f a) (f b)) ->
  map f (order_by leb l) = order_by leb' (map f l).
Proof.
  intros H. induction l as [|x l IH]; simpl; trivial.
  now rewrite (insert_sorted_map f leb leb'), IH.
Qed.

Lemma filter_map_commute {A B : Type} (f : A -> B) (p : B -> bool)
  (l : list A) :
  map f (filter (fun x => p (f x)) l) = filter p (map f l).
Proof.
  induction l as [|x l IH]; simpl; trivial.
  destruct (p (f x)); simpl; now rewrite IH.
Qed.

Lemma name_exists_seeds (n : string) (t : table Category.row) :
  name_exists n t = existsb (fun c => seed_name c =? n) (map seed_of (rows t)).
Proof.
  unfold name_exists. induction (rows t) as [|r l IH]; simpl; trivial.
  now rewrite IH.
Qed.

Lemma get_categories_seeds (d : db) (cat_type : option string) :
  get_categories d cat_type
  = map seed_label
      (order_by seed_name_asc
         (filter (fun c => constrains cat_type (fun t => snd (fst c) =? t))
            (map seed_of (rows (categories d))))).
Proof.
  rewrite <- (filter_map_commute seed_of
                (fun c => constrains cat_type (fun t => snd (fst c) =? t))).
  rewrite <- (order_by_map seed_of name_asc seed_name_asc) by reflexivity.
  rewrite map_map. unfold get_categories.
  destruct cat_type as [t|]; simpl.
  - destruct (t =? ""); simpl; trivial. now rewrite filter_all.
  - now rewrite filter_all.
Qed.

Lemma alike_ask (d d' : db) (q : query) : alike d d' -> ask d q = ask d' q.
Proof.
  intros (Hc & Ht & Hb). destruct q; simpl.
  - unfold get_transactions. now rewrite Ht.
  - now rewrite !get_categories_seeds, Hc.
  - unfold get_budget. now rewrite Hb.
  - unfold get_all_budgets. now rewrite Hb.
  - unfold get_spending_by_category. now rewrite Ht.
Qed.

Lemma alike_name_exists (d d' : db) (n : string) :
  alike d d' -> name_exists n (categories d) = name_exists n (categories d').
Proof. intros (Hc & _). now rewrite !name_exists_seeds, Hc. Qed.

Lemma alike_step (d d' : db) (q : request) :
  alike d d' -> alike (step d q) (step d' q).
Proof.
  intros H. pose proof H as (Hc & Ht & Hb).
  destruct q as [|a c ds dt ty|i|n ty ic|c a m y|].
  - destruct (seed_categories_rows default_categories (categories d)
                default_categories_distinct) as (new & Hrows & Hnew).
    destruct (seed_categories_rows default_categories (categories d')
                default_categories_distinct) as (new' & Hrows' & Hnew').
    split; [|split; assumption].
    change (map seed_of
              (rows (fold_left insert_or_ignore_category default_categories
                       (categories d)))
            = map seed_of
                (rows (fold_left insert_or_ignore_category default_categories
                         (categories d')))).
    rewrite Hrows, Hrows', !map_app, Hnew, Hnew', Hc. f_equal.
    apply filter_ext. intros c. unfold absent_from.
    now rewrite (alike_name_exists d d').
  - split; [assumption | split]; simpl; [now rewrite Ht | assumption].
  - split; [assumption | split]; simpl; [now rewrite Ht | assumption].
  - unfold step, add_category. rewrite <- (alike_name_exists d d' n H).
    destruct (name_exists n (categories d)); [exact H|].
    split; [|split; assumption].
    cbn [snd categories insert rows]. rewrite !map_app, Hc. reflexivity.
  - split; [assumption | split]; simpl; [assumption | now rewrite Hb].
  - split; [assumption | split]; simpl; [now rewrite Ht | now rewrite Hb].
Qed.

Lemma alike_run (l : list request) (d d' : db) :
  alike d d' -> alike (run d l) (run d' l).
Proof.
  revert d d'. unfold run. induction l as [|q l IH]; simpl; intros d d' H;
    trivial.
  apply IH. now apply alike_step.
Qed.

(** The categories counter in [sqlite_sequence] is the one thing a further
    run moves: every [INSERT OR IGNORE] records the rowid it picked, also
    when the row is ignored.  No method reads a category's rowid. *)
Remark init_database_counter :
  seq (categories fresh) = 14%Z
  /\ seq (categories (init_database (file_of fresh))) = 28%Z.
Proof. split; vm_compute; reflexivity. Qed.

(** C5: [init_database] on a store whose tables exist keeps every row of
    the three tables and appends to the categories exactly the default
    seeds whose name is absent; on a file without tables it stores the
    default seeds; and run a second time, from any file, it leaves the rows
    of all three tables as the first run left them, so that after any
    further requests every query, and every [add_category], answers as it
    would have after a single run. *)
Theorem init_database_idempotent (f : file) (d : db) :
  let d1 := init_database (file_of d) in
  let e1 := init_database f in
  let e2 := init_database (file_of e1) in
  (exists new,
      rows (categories d1) = rows (categories d) ++ new
      /\ map seed_of new = filter (absent_from (categories d)) default_categories)
  /\ transactions d1 = transactions d
  /\ budgets d1 = budgets d
  /\ map seed_of (rows (categories (init_database empty_file)))
     = default_categories
  /\ rows (transactions (init_database empty_file)) = []
  /\ rows (budgets (init_database empty_file)) = []
  /\ same_rows e2 e1
  /\ transactions e2 = transactions e1
  /\ budgets e2 = budgets e1
  /\ (forall (l : list request) (q : query),
        ask (run e2 l) q = ask (run e1 l) q)
  /\ (forall (l : list request) (name cat_type icon : string),
        fst (add_category (run e2 l) name cat_type icon)
        = fst (add_category (run e1 l) name cat_type icon)).
Proof.
  intros d1 e1 e2.
  assert (Hsame : same_rows e2 e1); [|assert (Halike : alike e2 e1)].
  2:{ destruct Hsame as (Hc & _). split; [now rewrite Hc | now split]. }
  2:{ split; [|split; [|split; [|split; [|split; [|split; [|split;
        [|split; [|split; [|split]]]]]]]]]; try reflexivity; trivial.
      - apply (seed_categories_rows default_categories (categories d)
                 default_categories_distinct).
      - intros l q. now apply alike_ask, alike_run.
      - intros l n ty ic. unfold add_category.
        rewrite (alike_name_exists _ _ n (alike_run l _ _ Halike)).
        now destruct (name_exists n (categories (run e1 l))). }
  - split; [|split; reflexivity].
    destruct (seed_categories_rows default_categories (categories e1)
                default_categories_distinct) as (new & Hrows & Hnew).
    change (rows (categories e2))
      with (rows (fold_left insert_or_ignore_category default_categories
                    (categories e1))).
    rewrite Hrows. rewrite filter_none in Hnew.
    + destruct new; [apply app_nil_r | discriminate].
    + intros c Hc.
      apply (seed_categories_present default_categories _ c
               default_categories_distinct Hc).
Qed.

(** ** Transactions: what a history leaves stored *)

Lemma run_tx_requests (h : list tx_request) (d : db) :
  run d (map request_of h)
  = Db (categories d) (fold_left tx_step h (transactions d)) (budgets d).
Proof.
  revert d. unfold run. induction h as [|q h IH]; intros d; simpl.
  - now destruct d.
  - rewrite IH. now destruct q.
Qed.

Lemma well_keyed_tx_step (t : table Transaction.row) (q : tx_request) :
  well_keyed Transaction.id t -> well_keyed Transaction.id (tx_step t q).
Proof.
  destruct q; simpl; intros H.
  - now apply well_keyed_insert.
  - now apply well_keyed_delete_where.
Qed.

(** Running a history on a table keeps the rows no later call deletes and
    appends what the history itself leaves stored, numbered from the next
    rowid on. *)
Lemma tx_history_rows (h : list tx_request) (t : table Transaction.row) :
  well_keyed Transaction.id t ->
  rows (fold_left tx_step h t)
  = filter (fun r => negb (deleted_later (Transaction.id r) h)) (rows t)
    ++ stored_from (seq t + 1) h.
Proof.
  revert t. induction h as [|q h IH]; intros t Hk.
  - simpl. rewrite app_nil_r. symmetry. now apply filter_all.
  - cbn [fold_left]. rewrite (IH _ (well_keyed_tx_step t q Hk)).
    destruct q as [a c ds dt ty|j].
    + cbn [tx_step insert rows seq]. rewrite (next_rowid_seq _ t Hk).
      rewrite filter_app, <- app_assoc. cbn [filter Transaction.id].
      cbn [stored_from deleted_later existsb orb].
      fold (deleted_later (seq t + 1) h).
      now destruct (deleted_later (seq t + 1) h).
    + cbn [tx_step delete_where rows seq stored_from].
      rewrite filter_filter. f_equal. apply filter_ext. intros r.
      cbn [deleted_later existsb]. fold (deleted_later (Transaction.id r) h).
      rewrite negb_orb. now rewrite Z.eqb_sym.
Qed.

Lemma stored_rows (h : list tx_request) :
  rows (transactions (run fresh (map request_of h))) = stored h.
Proof.
  rewrite run_tx_requests. cbn [transactions].
  change (transactions fresh) with (@empty_table Transaction.row).
  rewrite tx_history_rows by apply well_keyed_empty. reflexivity.
Qed.

(** ** [get_transactions] *)

Lemma forallb_and_if (r : Transaction.row) (arg : option string)
  (c : string -> condition) (query : list condition) :
  forallb (holds r) (and_if arg c query)
  = forallb (holds r) query && constrains arg (fun s => holds r (c s)).
Proof.
  destruct arg as [s|]; simpl.
  - destruct (s =? ""); simpl.
    + now rewrite andb_true_r.
    + rewrite forallb_app. simpl. now rewrite andb_true_r.
  - now rewrite andb_true_r.
Qed.

Lemma query_satisfies (sd ed ty cat : option string) (r : Transaction.row) :
  forallb (holds r) (get_transactions_query sd ed ty cat)
  = satisfies sd ed ty cat r.
Proof.
  unfold get_transactions_query. rewrite !forallb_and_if. reflexivity.
Qed.

Lemma date_desc_total (a b : Transaction.row) :
  date_desc a b = true \/ date_desc b a = true.
Proof. apply String.leb_total. Qed.

Lemma get_transactions_perm (d : db) (sd ed ty cat : option string) :
  Permutation (get_transactions d sd ed ty cat)
    (filter (satisfies sd ed ty cat) (rows (transactions d))).
Proof.
  unfold get_transactions. rewrite order_by_perm.
  rewrite (filter_ext _ _ (query_satisfies sd ed ty cat)). reflexivity.
Qed.

Lemma get_transactions_sorted (d : db) (sd ed ty cat : option string) :
  StronglySorted
    (fun a b => (Transaction.date b <=? Transaction.date a) = true)
    (get_transactions d sd ed ty cat).
Proof.
  apply (order_by_strongly_sorted date_desc).
  - apply date_desc_total.
  - intros x y z Hxy Hyz. unfold date_desc in *.
    now apply string_leb_trans with (Transaction.date y).
Qed.

Lemma get_transactions_in (d : db) (sd ed ty cat : option string)
  (r : Transaction.row) :
  In r (get_transactions d sd ed ty cat)
  <-> In r (rows (transactions d)) /\ satisfies sd ed ty cat r = true.
Proof.
  rewrite <- filter_In. split; apply Permutation_in.
  - apply get_transactions_perm.
  - apply Permutation_sym, get_transactions_perm.
Qed.

Lemma get_transactions_all (d : db) :
  Permutation (get_transactions d None None None None) (rows (transactions d)).
Proof.
  rewrite get_transactions_perm. now rewrite filter_all.
Qed.

(** C2, amended: after any history of [add_transaction] and
    [delete_transaction] calls the table holds exactly the transactions
    inserted and not deleted since, and [get_transactions] returns exactly
    those of them that satisfy every filter given as a non-empty string
    (dates compared inclusively, a filter that is omitted or empty not
    constraining), every row dated no earlier than the rows after it; the
    result is the empty list
    exactly when no stored transaction satisfies the filters, and without
    filters it is a permutation of the whole table. *)
Theorem get_transactions_filters (h : list tx_request)
  (start_date end_date trans_type category : option string) :
  let d := run fresh (map request_of h) in
  let result := get_transactions d start_date end_date trans_type category in
  rows (transactions d) = stored h
  /\ Permutation result
       (filter (satisfies start_date end_date trans_type category) (stored h))
  /\ StronglySorted
       (fun a b => (Transaction.date b <=? Transaction.date a) = true) result
  /\ (result = [] <->
      forall r, In r (stored h) ->
                satisfies start_date end_date trans_type category r = false)
  /\ Permutation (get_transactions d None None None None) (stored h).
Proof.
  intros d result. pose proof (stored_rows h) as Hrows. fold d in Hrows.
  assert (Hperm : Permutation result
            (filter (satisfies start_date end_date trans_type category)
               (stored h))).
  { rewrite <- Hrows. apply get_transactions_perm. }
  split; [exact Hrows | split; [exact Hperm | split; [|split]]].
  - apply get_transactions_sorted.
  - split.
    + intros Hnil r Hr.
      destruct (satisfies start_date end_date trans_type category r) eqn:E;
        trivial.
      assert (Hin : In r result).
      { apply (Permutation_in _ (Permutation_sym Hperm)).
        apply filter_In. now split. }
      rewrite Hnil in Hin. contradiction.
    + intros Hnone. rewrite (filter_none _ _ Hnone) in Hperm.
      now apply Permutation_nil.
  - rewrite <- Hrows. apply get_transactions_all.
Qed.

(** C2 as stated fails: with the category filter given as the empty string
    the one stored transaction is returned, although its category is not
    the empty string. *)
Lemma get_transactions_empty_category_given :
  let h := [Add 1200 "Food & Dining" "lunch" "2024-01-10" "expense"] in
  let d := run fresh (map request_of h) in
  stored h
  = [Transaction.Row 1 1200 "Food & Dining" "lunch" "2024-01-10" "expense"]
  /\ get_transactions d None None None (Some "") = stored h
  /\ filter (satisfies_given None None None (Some "")) (stored h) = []
  /\ ~ Permutation (get_transactions d None None None (Some ""))
         (filter (satisfies_given None None None (Some "")) (stored h)).
Proof.
  split; [|split; [|split]]; try (vm_compute; reflexivity).
  intros H. apply Permutation_length in H. vm_compute in H. discriminate.
Qed.

Lemma and_if_omit_empty (arg : option string) (c : string -> condition)
  (query : list condition) :
  and_if (omit_empty arg) c query = and_if arg c query.
Proof.
  destruct arg as [s|]; simpl; trivial.
  destruct (s =? "") eqn:E; simpl; trivial. now rewrite E.
Qed.

(** C10: in every store state, an empty-string start date, end date, type
    or category gives the result of the call with that filter omitted,
    whatever the other arguments are. *)
Theorem get_transactions_empty_string_omitted (d : db)
  (start_date end_date trans_type category : option string) :
  get_transactions d (Some "") end_date trans_type category
  = get_transactions d None end_date trans_type category
  /\ get_transactions d start_date (Some "") trans_type category
     = get_transactions d start_date None trans_type category
  /\ get_transactions d start_date end_date (Some "") category
     = get_transactions d start_date end_date None category
  /\ get_transactions d start_date end_date trans_type (Some "")
     = get_transactions d start_date end_date trans_type None
  /\ get_transactions d start_date end_date trans_type category
     = get_transactions d (omit_empty start_date) (omit_empty end_date)
         (omit_empty trans_type) (omit_empty category).
Proof.
  repeat split.
  unfold get_transactions, get_transactions_query.
  now rewrite !and_if_omit_empty.
Qed.

(** ** [delete_transaction] *)

Lemma has_id_unique (i : Z) (l : list Transaction.row) :
  NoDup (map Transaction.id l) ->
  List.length (filter (has_id i) l) = if existsb (has_id i) l then 1%nat else 0%nat.
Proof.
  induction l as [|r l IH]; simpl; intros H; trivial.
  inversion H as [|? ? Hnotin Hnd]; subst.
  destruct (has_id i r) eqn:E; simpl.
  - f_equal. rewrite filter_none; trivial.
    intros r' Hr'. unfold has_id in *. apply Z.eqb_eq in E.
    apply Z.eqb_neq. intros E'. apply Hnotin. rewrite E, <- E'.
    now apply in_map.
  - now apply IH.
Qed.

(** C6: in every reachable state and for every id, [delete_transaction]
    keeps, in order, exactly the transactions with another id and touches
    no other table; [get_transactions] afterwards returns, under any
    filters, what it returned before except the row with that id; one row
    goes away when the id is present, and when it is absent the store is
    left as it was; deleting the same id a second time changes nothing
    more. *)
Theorem delete_transaction_removes (l : list request) (trans_id : Z) :
  let d := run fresh l in
  let d' := delete_transaction d trans_id in
  let present := existsb (has_id trans_id) (rows (transactions d)) in
  rows (transactions d')
  = filter (fun r => negb (has_id trans_id r)) (rows (transactions d))
  /\ (forall start_date end_date trans_type category r,
        In r (get_transactions d' start_date end_date trans_type category)
        <-> In r (get_transactions d start_date end_date trans_type category)
            /\ Transaction.id r <> trans_id)
  /\ List.length (rows (transactions d))
     = (List.length (rows (transactions d')) + if present then 1 else 0)%nat
  /\ (if present then True else d' = d)
  /\ categories d' = categories d
  /\ budgets d' = budgets d
  /\ delete_transaction d' trans_id = d'.
Proof.
  intros d d' present.
  assert (Hk : NoDup (map Transaction.id (rows (transactions d)))).
  { apply (consistent_run l fresh consistent_fresh). }
  split; [reflexivity | split; [|split; [|split; [|split; [|split]]]]];
    try reflexivity.
  - intros sd ed ty cat r. rewrite !get_transactions_in.
    unfold d'. cbn [delete_transaction transactions delete_where rows].
    rewrite filter_In, negb_true_iff, Z.eqb_neq. tauto.
  - rewrite (filter_partition_length (has_id trans_id) (rows (transactions d))).
    now rewrite (has_id_unique _ _ Hk).
  - destruct present eqn:E; trivial.
    unfold d', delete_transaction, delete_where.
    rewrite filter_all.
    + now destruct d as [c [t s] b].
    + intros r Hr. apply negb_true_iff.
      destruct (Z.eqb_spec (Transaction.id r) trans_id) as [Heq|]; trivial.
      assert (present = true); [|congruence].
      apply existsb_exists. exists r. split; trivial.
      now apply Z.eqb_eq.
  - unfold d', delete_transaction, delete_where. cbn [transactions rows seq].
    f_equal. f_equal. rewrite filter_filter. apply filter_ext.
    intros r. now rewrite andb_diag.
Qed.

(** ** [add_category] *)

(** C7: when a category of that name exists, [add_category] returns
    [False] and leaves the store as it was; otherwise it returns [True]
    and the store has the new category appended, under a fresh rowid, with
    the transactions and budgets untouched. *)
Theorem add_category_duplicate (d : db) (name cat_type icon : string) :
  (In name (map Category.name (rows (categories d)))
   /\ add_category d name cat_type icon = (false, d))
  \/ (~ In name (map Category.name (rows (categories d)))
      /\ exists i,
           ~ In i (map Category.id (rows (categories d)))
           /\ add_category d name cat_type icon
              = (true,
                 Db (Table (rows (categories d)
                            ++ [Category.Row i name cat_type icon]) i)
                    (transactions d) (budgets d))).
Proof.
  unfold add_category. destruct (name_exists name (categories d)) eqn:E.
  - left. split; trivial. now apply name_exists_true.
  - right. split; [now apply name_exists_false|].
    exists (next_rowid Category.id (categories d)). split; trivial.
    intros Hin. apply in_map_iff in Hin. destruct Hin as (r & Hr & Hin).
    apply (next_rowid_fresh Category.id) in Hin. lia.
Qed.

(** ** [clear_all_data] *)

Lemma step_categories_grow (d : db) (q : request) :
  (List.length (rows (categories d))
   <= List.length (rows (categories (step d q))))%nat.
Proof.
  destruct q as [|a c ds dt ty|i|n ty ic|c a m y|].
  - destruct (seed_categories_rows default_categories (categories d)
                default_categories_distinct) as (new & Hrows & _).
    change (rows (categories (step d Init)))
      with (rows (fold_left insert_or_ignore_category default_categories
                    (categories d))).
    rewrite Hrows, length_app. lia.
  - apply Nat.le_refl.
  - apply Nat.le_refl.
  - unfold step, add_category.
    destruct (name_exists n (categories d)); cbn [snd categories insert rows].
    + lia.
    + rewrite length_app. lia.
  - apply Nat.le_refl.
  - apply Nat.le_refl.
Qed.

Lemma run_categories_grow (l : list request) (d : db) :
  (List.length (rows (categories d))
   <= List.length (rows (categories (run d l))))%nat.
Proof.
  revert d. unfold run. induction l as [|q l IH]; intros d; simpl; [lia|].
  pose proof (step_categories_grow d q). specialize (IH (step d q)). lia.
Qed.

Lemma get_categories_all_length (d : db) :
  List.length (get_categories d None) = List.length (rows (categories d)).
Proof.
  unfold get_categories. rewrite length_map.
  apply Permutation_length, order_by_perm.
Qed.

(** C8: after [clear_all_data], [get_transactions] returns nothing whatever
    the filters, [get_all_budgets] returns nothing for every month and
    year, the categories table is the one from before the call, so
    [get_categories] answers as before; and in every reachable state that
    answer is not empty. *)
Theorem clear_all_data_keeps_categories (d : db) (l : list request) :
  let d' := clear_all_data d in
  (forall start_date end_date trans_type category,
      get_transactions d' start_date end_date trans_type category = [])
  /\ (forall month year, get_all_budgets d' month year = [])
  /\ (forall category month year, get_budget d' category month year = None)
  /\ categories d' = categories d
  /\ (forall cat_type, get_categories d' cat_type = get_categories d cat_type)
  /\ get_categories (clear_all_data (run fresh l)) None <> [].
Proof.
  intros d'. repeat split.
  intros Hnil. apply (f_equal (@List.length string)) in Hnil.
  rewrite get_categories_all_length in Hnil.
  change (categories (clear_all_data (run fresh l)))
    with (categories (run fresh l)) in Hnil.
  pose proof (run_categories_grow l fresh) as Hle.
  change (List.length (rows (categories fresh))) with 14%nat in Hle.
  simpl in Hnil. lia.
Qed.

(** ** [get_categories] *)

Lemma name_asc_total (a b : Category.row) :
  name_asc a b = true \/ name_asc b a = true.
Proof. apply String.leb_total. Qed.

(** C9, amended: [get_categories] returns one entry per stored category,
    restricted to the given type when a non-empty type is given (and not
    restricted when the type is omitted or is the empty string), in
    ascending order of the names, each entry being the string made of the
    icon, one space and the name. *)
Theorem get_categories_labels (d : db) (cat_type : option string) :
  exists selected,
    get_categories d cat_type
    = map (fun r => (Category.icon r ++ " " ++ Category.name r)%string)
        selected
    /\ Permutation selected
         (filter (type_selected cat_type) (rows (categories d)))
    /\ StronglySorted
         (fun a b => (Category.name a <=? Category.name b) = true) selected
    /\ List.length (get_categories d cat_type)
       = List.length (filter (type_selected cat_type) (rows (categories d))).
Proof.
  exists (order_by name_asc
            (filter (type_selected cat_type) (rows (categories d)))).
  assert (Hget : get_categories d cat_type
                 = map label
                     (order_by name_asc
                        (filter (type_selected cat_type) (rows (categories d))))).
  { unfold get_categories, type_selected. destruct cat_type as [t|]; simpl.
    - destruct (t =? ""); simpl; trivial. now rewrite filter_all.
    - now rewrite filter_all. }
  split; [exact Hget | split; [|split]].
  - apply order_by_perm.
  - apply (order_by_strongly_sorted name_asc).
    + apply name_asc_total.
    + intros x y z. apply string_leb_trans.
  - rewrite Hget, length_map. apply Permutation_length, order_by_perm.
Qed.

(** C9 as stated fails: given the empty string as the type, all fourteen
    default categories are returned, although none has the empty type. *)
Lemma get_categories_empty_type_given :
  get_categories fresh (Some "") = get_categories fresh None
  /\ List.length (get_categories fresh (Some "")) = 14%nat
  /\ filter (fun r => Category.type r =? "") (rows (categories fresh)) = []
  /\ List.length (get_categories fresh (Some ""))
     <> List.length
          (filter (fun r => Category.type r =? "") (rows (categories fresh))).
Proof.
  split; [|split; [|split]]; try (vm_compute; reflexivity).
  vm_compute. discriminate.
Qed.

(** * Further properties of the store *)

(** ** Budgets: reading back what was set *)

Lemma in_get_all_budgets (d : db) (c : string) (a : Q) (m y : Z) :
  In (c, a) (get_all_budgets d m y)
  <-> exists r, In r (filter (same_key c m y) (rows (budgets d)))
                /\ Budget.amount r = a.
Proof.
  unfold get_all_budgets. rewrite in_map_iff. split.
  - intros (r & Hr & Hin). apply filter_In in Hin. destruct Hin as (Hin & Hm).
    injection Hr as Hc Ha. exists r. split; trivial.
    apply filter_In. split; trivial. unfold same_key.
    rewrite Hc, String.eqb_refl. exact Hm.
  - intros (r & Hin & Ha). apply filter_In in Hin. destruct Hin as (Hin & Hk).
    exists r. pose proof (same_key_in_month _ _ _ _ Hk) as Hm.
    apply same_key_true in Hk. injection Hk as Hc _ _.
    split; [now rewrite Hc, Ha | now apply filter_In].
Qed.

Lemma same_key_other (c c' : string) (m y m' y' : Z) (r : Budget.row) :
  (c', m', y') <> (c, m, y) -> same_key c' m' y' r = true ->
  same_key c m y r = false.
Proof.
  intros Hne Hk'. destruct (same_key c m y r) eqn:Hk; trivial.
  apply same_key_true in Hk, Hk'. congruence.
Qed.

Lemma set_budget_other_rows (d : db) (c c' : string) (a : Q)
  (m y m' y' : Z) :
  (c', m', y') <> (c, m, y) ->
  filter (same_key c' m' y') (rows (budgets (set_budget d c a m y)))
  = filter (same_key c' m' y') (rows (budgets d)).
Proof.
  intros Hne. cbn [set_budget budgets rows].
  rewrite filter_app, filter_filter. cbn [filter].
  replace (same_key c' m' y' (Budget.Row _ c a m y)) with false.
  - rewrite app_nil_r. apply filter_ext. intros r.
    destruct (same_key c' m' y' r) eqn:Hk'.
    + now rewrite (same_key_other c c' m y m' y' r Hne Hk').
    + apply andb_false_r.
  - symmetry. destruct (same_key c' m' y' (Budget.Row _ c a m y)) eqn:Hk;
      trivial.
    apply same_key_true in Hk. unfold budget_key in Hk. simpl in Hk.
    congruence.
Qed.

(** X1: [set_budget] for one (category, month, year) changes the budget of
    no other key: [get_budget] of any other key answers as before, and a
    pair of another key is listed by [get_all_budgets] exactly when it was
    listed before. *)
Theorem set_budget_other_keys (d : db) (c c' : string) (a : Q)
  (m y m' y' : Z) :
  (c', m', y') <> (c, m, y) ->
  get_budget (set_budget d c a m y) c' m' y' = get_budget d c' m' y'
  /\ (forall a',
        In (c', a') (get_all_budgets (set_budget d c a m y) m' y')
        <-> In (c', a') (get_all_budgets d m' y')).
Proof.
  intros Hne. split.
  - unfold get_budget. now rewrite (set_budget_other_rows d c c' a m y m' y').
  - intros a'. rewrite !in_get_all_budgets.
    now rewrite (set_budget_other_rows d c c' a m y m' y').
Qed.

Lemma set_budget_other_keys_witness :
  get_budget (set_budget scenario "Shopping" 300 1 2024) "Shopping" 2 2024
  = get_budget scenario "Shopping" 2 2024
  /\ (forall a',
        In ("Shopping", a')
          (get_all_budgets (set_budget scenario "Shopping" 300 1 2024) 2 2024)
        <-> In ("Shopping", a') (get_all_budgets scenario 2 2024)).
Proof.
  apply (set_budget_other_keys scenario "Shopping" "Shopping" 300 1 2024 2 2024).
  discriminate.
Defined.

(** X2: in every reachable state the two readers of the budgets agree:
    [get_budget] returns an amount for a category exactly when
    [get_all_budgets] lists the category with that amount for the month,
    and it returns [None] exactly when the month's list lacks the
    category. *)
Theorem get_budget_agrees_with_get_all_budgets (l : list request)
  (c : string) (a : Q) (m y : Z) :
  let d := run fresh l in
  (get_budget d c m y = Some a <-> In (c, a) (get_all_budgets d m y))
  /\ (get_budget d c m y = None
      <-> ~ In c (map fst (get_all_budgets d m y))).
Proof.
  intros d.
  assert (Hu : NoDup (map budget_key (rows (budgets d)))).
  { apply (consistent_run l fresh consistent_fresh). }
  pose proof (filter_same_key_unique c m y _ Hu) as Hle.
  assert (Hall : forall a', In (c, a') (get_all_budgets d m y)
                   <-> exists r, In r (filter (same_key c m y) (rows (budgets d)))
                                 /\ Budget.amount r = a')
    by (intros a'; apply in_get_all_budgets).
  unfold get_budget.
  destruct (filter (same_key c m y) (rows (budgets d))) as [|r [|r' rest]];
    simpl in Hle; try lia.
  - split.
    + rewrite Hall. split; [discriminate | intros (r & [] & _)].
    + split; trivial. intros _ Hin. apply in_map_iff in Hin.
      destruct Hin as ([c0 a0] & Hc & Hin). simpl in Hc. subst c0.
      apply Hall in Hin. destruct Hin as (r & [] & _).
  - split.
    + rewrite Hall. split.
      * intros [= <-]. exists r. split; [now left | reflexivity].
      * intros (r0 & [<-|[]] & <-). reflexivity.
    + split; [discriminate|]. intros Hnot. exfalso. apply Hnot.
      apply in_map_iff. exists (c, Budget.amount r). split; trivial.
      apply Hall. exists r. split; [now left | reflexivity].
Qed.

(** ** Transactions: rowids are given once *)

Lemma tx_rows_step (d : db) (q : request) (r : Transaction.row) :
  In r (rows (transactions (step d q))) ->
  In r (rows (transactions d)) \/ (seq (transactions d) < Transaction.id r)%Z.
Proof.
  destruct q as [|a c ds dt ty|i|n ty ic|c a m y|]; intros Hin.
  - now left.
  - cbn [step add_transaction transactions insert rows] in Hin.
    apply in_app_or in Hin. destruct Hin as [Hin|[<-|[]]]; [now left|].
    right. cbn [Transaction.id]. unfold next_rowid. lia.
  - cbn [step delete_transaction transactions delete_where rows] in Hin.
    apply filter_In in Hin. now left.
  - left. unfold step, add_category in Hin.
    now destruct (name_exists n (categories d)).
  - now left.
  - destruct Hin.
Qed.

Lemma tx_seq_step (d : db) (q : request) :
  (seq (transactions d) <= seq (transactions (step d q)))%Z.
Proof.
  destruct q as [|a c ds dt ty|i|n ty ic|c a m y|]; try apply Z.le_refl.
  - cbn [step add_transaction transactions insert seq]. unfold next_rowid. lia.
  - unfold step, add_category.
    destruct (name_exists n (categories d)); apply Z.le_refl.
Qed.

Lemma tx_rows_run (l : list request) (d : db) (r : Transaction.row) :
  In r (rows (transactions (run d l))) ->
  In r (rows (transactions d)) \/ (seq (transactions d) < Transaction.id r)%Z.
Proof.
  revert d. unfold run. induction l as [|q l IH]; intros d Hin; [now left|].
  cbn [fold_left] in Hin. destruct (IH _ Hin) as [Hold|Hnew].
  - exact (tx_rows_step d q r Hold).
  - right. pose proof (tx_seq_step d q). lia.
Qed.

Lemma tx_seq_run (l : list request) (d : db) :
  (seq (transactions d) <= seq (transactions (run d l)))%Z.
Proof.
  revert d. unfold run. induction l as [|q l IH]; intros d; [apply Z.le_refl|].
  cbn [fold_left]. pose proof (tx_seq_step d q). specialize (IH (step d q)).
  lia.
Qed.

(** X3: whatever requests follow, a transaction whose id is at most the
    counter the table had reached is a row the table already held,
    unchanged: rows are never rewritten, and an id at or below the counter
    is never given to a new row.  The counter itself never goes down. *)
Theorem transaction_ids_given_once (d : db) (l : list request)
  (r : Transaction.row) :
  In r (rows (transactions (run d l))) ->
  (Transaction.id r <= seq (transactions d))%Z ->
  In r (rows (transactions d))
  /\ (seq (transactions d) <= seq (transactions (run d l)))%Z.
Proof.
  intros Hin Hle. split; [|apply tx_seq_run].
  destruct (tx_rows_run l d r Hin) as [H|H]; [exact H | lia].
Qed.

Lemma transaction_ids_given_once_witness :
  In (Transaction.Row 1 50000 "Salary" "" "2024-01-05" "income")
    (rows (transactions scenario))
  /\ (seq (transactions scenario)
      <= seq (transactions
                (run scenario
                   [ DeleteTransaction 2;
                     AddTransaction 80 "Shopping" "" "2024-01-11" "expense" ])))%Z.
Proof.
  apply (transaction_ids_given_once scenario
           [ DeleteTransaction 2;
             AddTransaction 80 "Shopping" "" "2024-01-11" "expense" ]
           (Transaction.Row 1 50000 "Salary" "" "2024-01-05" "income")).
  - vm_compute. now left.
  - vm_compute. discriminate.
Defined.

(** X4: in every reachable state, once a stored transaction is deleted its
    id never shows up again, whatever requests follow, further
    [add_transaction] and [clear_all_data] calls included. *)
Theorem deleted_id_never_returns (l l' : list request) (trans_id : Z) :
  let d := run fresh l in
  existsb (has_id trans_id) (rows (transactions d)) = true ->
  Forall (fun r => Transaction.id r <> trans_id)
    (rows (transactions (run (delete_transaction d trans_id) l'))).
Proof.
  intros d Hpresent.
  assert (Hw : well_keyed Transaction.id (transactions d)).
  { apply (consistent_run l fresh consistent_fresh). }
  apply existsb_exists in Hpresent. destruct Hpresent as (r0 & Hr0 & Hid).
  apply Z.eqb_eq in Hid.
  destruct Hw as (_ & Hle & _). rewrite Forall_forall in Hle.
  specialize (Hle r0 Hr0). apply Forall_forall. intros r Hin.
  destruct (tx_rows_run l' _ r Hin) as [Hold|Hnew].
  - cbn [delete_transaction transactions delete_where rows] in Hold.
    apply filter_In in Hold. destruct Hold as [_ Hne].
    now apply negb_true_iff, Z.eqb_neq in Hne.
  - cbn [delete_transaction transactions delete_where seq] in Hnew. lia.
Qed.

Lemma deleted_id_never_returns_witness :
  Forall (fun r => Transaction.id r <> 2%Z)
    (rows (transactions
             (run (delete_transaction scenario 2)
                [ ClearAllData;
                  AddTransaction 80 "Shopping" "" "2024-01-11" "expense" ]))).
Proof.
  apply (deleted_id_never_returns
           [ AddTransaction 50000 "Salary" "" "2024-01-05" "income";
             AddTransaction 1200 "Food & Dining" "" "2024-01-10" "expense" ]
           [ ClearAllData;
             AddTransaction 80 "Shopping" "" "2024-01-11" "expense" ] 2).
  vm_compute. reflexivity.
Defined.

(** ** Transactions: adding, then reading or deleting *)

(** X5: deleting the id that [add_transaction] has just assigned undoes the
    insertion: the table holds the rows it held before, the other tables
    are untouched, and [get_transactions] answers every combination of
    filters as before. *)
Theorem add_then_delete_restores (d : db) (amount : Q)
  (category description date trans_type : string) :
  let d' := add_transaction d amount category description date trans_type in
  let d'' := delete_transaction d' (seq (transactions d')) in
  rows (transactions d'') = rows (transactions d)
  /\ categories d'' = categories d
  /\ budgets d'' = budgets d
  /\ (forall sd ed ty cat,
        get_transactions d'' sd ed ty cat = get_transactions d sd ed ty cat).
Proof.
  intros d' d''.
  assert (Hrows : rows (transactions d'') = rows (transactions d)).
  { unfold d'', d'.
    cbn [add_transaction delete_transaction transactions insert delete_where
         rows seq].
    rewrite filter_app. cbn [filter Transaction.id].
    rewrite Z.eqb_refl. cbn [negb]. rewrite app_nil_r.
    apply filter_all. intros r Hr.
    apply (next_rowid_fresh Transaction.id) in Hr.
    apply negb_true_iff, Z.eqb_neq. lia. }
  split; [exact Hrows | split; [reflexivity | split; [reflexivity|]]].
  intros sd ed ty cat. unfold get_transactions. now rewrite Hrows.
Qed.

(** X6: after [add_transaction], [get_transactions] returns, for every
    combination of filters, what it returned before together with the new
    row when that row satisfies the filters, and just what it returned
    before when it does not. *)
Theorem add_transaction_then_get (d : db) (amount : Q)
  (category description date trans_type : string)
  (sd ed ty cat : option string) :
  let new := Transaction.Row (next_rowid Transaction.id (transactions d))
               amount category description date trans_type in
  let d' := add_transaction d amount category description date trans_type in
  Permutation (get_transactions d' sd ed ty cat)
    (if satisfies sd ed ty cat new
     then new :: get_transactions d sd ed ty cat
     else get_transactions d sd ed ty cat).
Proof.
  intros new d'. rewrite (get_transactions_perm d').
  cbn [d' add_transaction transactions insert rows]. unfold d'.
  cbn [add_transaction transactions insert rows].
  rewrite filter_app. cbn [filter]. fold new.
  destruct (satisfies sd ed ty cat new).
  - rewrite <- Permutation_cons_append. constructor.
    symmetry. apply get_transactions_perm.
  - rewrite app_nil_r. symmetry. apply get_transactions_perm.
Qed.

(** ** Categories are only ever added *)

Lemma get_categories_perm (d : db) (cat_type : option string) :
  Permutation (get_categories d cat_type)
    (map label (filter (type_selected cat_type) (rows (categories d)))).
Proof.
  assert (Hsel : get_categories d cat_type
                 = map label
                     (order_by name_asc
                        (filter (type_selected cat_type) (rows (categories d))))).
  { unfold get_categories, type_selected. destruct cat_type as [t|]; simpl.
    - destruct (t =? ""); simpl; trivial. now rewrite filter_all.
    - now rewrite filter_all. }
  rewrite Hsel. apply Permutation_map, order_by_perm.
Qed.

Lemma step_categories_append (d : db) (q : request) :
  exists new, rows (categories (step d q)) = rows (categories d) ++ new.
Proof.
  destruct q as [|a c ds dt ty|i|n ty ic|c a m y|];
    try (exists []; symmetry; apply app_nil_r).
  - destruct (seed_categories_rows default_categories (categories d)
                default_categories_distinct) as (new & Hrows & _).
    exists new. exact Hrows.
  - unfold step, add_category. destruct (name_exists n (categories d)).
    + exists []. symmetry. apply app_nil_r.
    + eexists. reflexivity.
Qed.

Lemma run_categories_append (l : list request) (d : db) :
  exists new, rows (categories (run d l)) = rows (categories d) ++ new.
Proof.
  revert d. unfold run. induction l as [|q l IH]; intros d.
  - exists []. symmetry. apply app_nil_r.
  - cbn [fold_left]. destruct (IH (step d q)) as (new & Hnew).
    destruct (step_categories_append d q) as (new0 & Hnew0).
    exists (new0 ++ new). now rewrite Hnew, Hnew0, app_assoc.
Qed.

(** X7: no request removes or rewrites a category: after any requests the
    categories table is the table from before with rows appended, so
    whatever [get_categories] listed, for any type argument, it still
    lists. *)
Theorem categories_only_grow (d : db) (l : list request)
  (cat_type : option string) :
  (exists new, rows (categories (run d l)) = rows (categories d) ++ new)
  /\ incl (get_categories d cat_type) (get_categories (run d l) cat_type).
Proof.
  destruct (run_categories_append l d) as (new & Hnew).
  split; [now exists new|].
  intros x Hx.
  apply (Permutation_in _ (Permutation_sym (get_categories_perm _ cat_type))).
  apply (Permutation_in _ (get_categories_perm _ cat_type)) in Hx.
  rewrite Hnew, filter_app, map_app. apply in_or_app. now left.
Qed.

(** X8: [add_category] and [get_categories] fit together: when the call
    succeeds and the new category's type passes the type argument, the list
    gains the entry made of the icon, a space and the name; in every other
    case the list is the one from before. *)
Theorem add_category_then_get (d : db) (name cat_type icon : string)
  (asked : option string) :
  let result := add_category d name cat_type icon in
  Permutation (get_categories (snd result) asked)
    (if fst result && constrains asked (fun t => cat_type =? t)
     then (icon ++ " " ++ name)%string :: get_categories d asked
     else get_categories d asked).
Proof.
  intros result. unfold result, add_category.
  destruct (name_exists name (categories d)); cbn [fst snd andb].
  - reflexivity.
  - rewrite (get_categories_perm _ asked).
    cbn [categories insert rows]. rewrite filter_app, map_app.
    cbn [filter]. unfold type_selected at 2. cbn [Category.type].
    destruct (constrains asked (fun t => cat_type =? t)).
    + cbn [map app]. rewrite <- Permutation_cons_append. constructor.
      symmetry. apply get_categories_perm.
    + cbn [map]. rewrite app_nil_r. symmetry. apply get_categories_perm.
Qed.

(** ** Spending follows the expenses *)

Lemma filter_perm {A : Type} (p : A -> bool) (l l' : list A) :
  Permutation l l' -> Permutation (filter p l) (filter p l').
Proof.
  induction 1 as [|x l l' _ IH|x y l|l l' l'' _ IH1 _ IH2]; simpl.
  - constructor.
  - destruct (p x); [now constructor | exact IH].
  - destruct (p x), (p y); try reflexivity. apply perm_swap.
  - now transitivity (filter p l').
Qed.









(** * Properties of the presentation layer *)

(** ** The dashboard's expenses and the chart's categories *)

Lemma empty_string_least (s : string) : ("" <=? s) = true.
Proof. now destruct s. Qed.

(** X10: for an end date that is not the empty string, the expense rows
    of the frame the dashboard gets from
    [get_transactions(start_date, end_date)], whose amounts it adds up,
    are up to order the rows [get_spending_by_category] groups for the
    chart with the same dates; so the chart shows a category exactly when
    one of these rows has it. *)
Theorem dashboard_expenses_match_chart (d : db)
  (start_date end_date : string) :
  end_date <> "" ->
  let frame :=
    get_transactions d (Some start_date) (Some end_date) None None in
  let expense_data := get_spending_by_category d start_date end_date in
  Permutation (of_type "expense" frame)
    (filter (expense_between start_date end_date) (rows (transactions d)))
  /\ (forall c, In c (map fst expense_data)
                <-> In c (map Transaction.category (of_type "expense" frame))).
Proof.
  intros Hend frame expense_data.
  assert (Hperm : Permutation (of_type "expense" frame)
                    (filter (expense_between start_date end_date)
                       (rows (transactions d)))).
  { unfold of_type, frame.
    rewrite (filter_perm _ _ _ (get_transactions_perm d _ _ _ _)).
    rewrite filter_filter.
    rewrite (filter_ext _ (expense_between start_date end_date));
      [reflexivity|].
    intros r. unfold satisfies, expense_between. cbn [constrains].
    apply String.eqb_neq in Hend. rewrite Hend, !andb_true_r.
    destruct (start_date =? "") eqn:Hstart.
    - apply String.eqb_eq in Hstart. subst start_date.
      rewrite empty_string_least. cbn [andb].
      now rewrite andb_true_r, andb_comm.
    - rewrite andb_comm, andb_assoc. reflexivity. }
  split; [exact Hperm|].
  intros c.
  assert (Hfst : Permutation (map fst expense_data)
                   (nodup string_dec
                      (map Transaction.category
                         (filter (expense_between start_date end_date)
                            (rows (transactions d)))))).
  { rewrite <- group_by_category_fst. apply Permutation_map.
    apply order_by_perm. }
  split; intros Hc.
  - apply (Permutation_in _ Hfst), nodup_In in Hc.
    apply (Permutation_in _ (Permutation_map _ (Permutation_sym Hperm))).
    exact Hc.
  - apply (Permutation_in _ (Permutation_sym Hfst)), nodup_In.
    apply (Permutation_in _ (Permutation_map _ Hperm)). exact Hc.
Qed.

Lemma dashboard_expenses_match_chart_witness :
  let d :=
    run scenario
      [ AddTransaction 300 "Shopping" "" "2024-01-20" "expense";
        AddTransaction 450 "Food & Dining" "" "2024-01-25" "expense";
        AddTransaction 800 "Shopping" "" "2024-02-02" "expense" ] in
  let frame :=
    get_transactions d (Some "2024-01-01") (Some "2024-01-31") None None in
  let expense_data := get_spending_by_category d "2024-01-01" "2024-01-31" in
  Permutation (of_type "expense" frame)
    (filter (expense_between "2024-01-01" "2024-01-31")
       (rows (transactions d)))
  /\ (forall c, In c (map fst expense_data)
                <-> In c (map Transaction.category (of_type "expense" frame))).
Proof.
  intros d.
  apply (dashboard_expenses_match_chart d "2024-01-01" "2024-01-31").
  discriminate.
Defined.

(** ** Labels and the names behind them *)

Lemma after_first_space_none (icon rest : string) :
  after_first_space icon = None ->
  after_first_space (icon ++ " " ++ rest) = Some rest.
Proof.
  induction icon as [|c icon IH]; simpl; trivial.
  destruct (c =? " ")%char; [discriminate | exact IH].
Qed.

Lemma after_first_space_some (icon tail rest : string) :
  after_first_space icon = Some tail ->
  after_first_space (icon ++ rest) = Some (tail ++ rest)%string.
Proof.
  induction icon as [|c icon IH]; simpl; [discriminate|].
  destruct (c =? " ")%char; [now intros [= ->] | exact IH].
Qed.

Lemma string_length_app (s t : string) :
  String.length (s ++ t) = (String.length s + String.length t)%nat.
Proof. induction s as [|c s IH]; simpl; [reflexivity | now rewrite IH]. Qed.

Lemma clean_label_spaceless (r : Category.row) :
  spaceless (Category.icon r) = true ->
  clean_category (label r) = Category.name r.
Proof.
  unfold clean_category, spaceless, label.
  destruct (after_first_space (Category.icon r)) as [tail|] eqn:E;
    [discriminate|].
  intros _. now rewrite (after_first_space_none _ _ E).
Qed.

(** X11: cleaning the entry [get_categories] builds for a category gives
    back the category's name exactly when the icon contains no space; with
    a space in the icon the form would store something else than the
    name. *)
Theorem clean_category_label (r : Category.row) :
  clean_category (label r) = Category.name r
  <-> spaceless (Category.icon r) = true.
Proof.
  split; [|apply clean_label_spaceless].
  unfold clean_category, spaceless, label.
  destruct (after_first_space (Category.icon r)) as [tail|] eqn:E; trivial.
  rewrite (after_first_space_some _ tail _ E).
  intros H. apply (f_equal String.length) in H.
  rewrite !string_length_app in H. simpl in H. lia.
Qed.

Lemma default_icons_spaceless :
  forallb (fun c => spaceless (snd c)) default_categories = true.
Proof. vm_compute. reflexivity. Qed.

Lemma fresh_icons_spaceless :
  forallb (fun r => spaceless (Category.icon r)) (rows (categories fresh))
  = true.
Proof. vm_compute. reflexivity. Qed.

Lemma step_icons_spaceless (d : db) (q : request) :
  forallb spaceless (added_icons [q]) = true ->
  Forall (fun r => spaceless (Category.icon r) = true) (rows (categories d)) ->
  Forall (fun r => spaceless (Category.icon r) = true)
    (rows (categories (step d q))).
Proof.
  intros Hq Hd.
  destruct q as [|a c ds dt ty|i|n ty ic|c a m y|]; trivial.
  - destruct (seed_categories_rows default_categories (categories d)
                default_categories_distinct) as (new & Hrows & Hnew).
    change (rows (categories (step d Init)))
      with (rows (fold_left insert_or_ignore_category default_categories
                    (categories d))).
    rewrite Hrows. apply Forall_app. split; trivial.
    apply Forall_forall. intros r Hr.
    assert (Hin : In (seed_of r) default_categories).
    { apply (in_map seed_of) in Hr. rewrite Hnew in Hr.
      apply filter_In in Hr. exact (proj1 Hr). }
    pose proof default_icons_spaceless as Hall.
    rewrite forallb_forall in Hall. exact (Hall _ Hin).
  - unfold step, add_category.
    destruct (name_exists n (categories d)); trivial.
    cbn [snd categories insert rows]. apply Forall_app. split; trivial.
    constructor; [|constructor]. cbn [Category.icon].
    simpl in Hq. now rewrite andb_true_r in Hq.
Qed.

Lemma run_icons_spaceless (l : list request) (d : db) :
  forallb spaceless (added_icons l) = true ->
  Forall (fun r => spaceless (Category.icon r) = true) (rows (categories d)) ->
  Forall (fun r => spaceless (Category.icon r) = true)
    (rows (categories (run d l))).
Proof.
  revert d. unfold run. induction l as [|q l IH]; intros d Hl Hd; trivial.
  cbn [fold_left].
  assert (Hcons : added_icons (q :: l) = added_icons [q] ++ added_icons l)
    by now destruct q.
  rewrite Hcons, forallb_app in Hl. apply andb_true_iff in Hl. destruct Hl as [Hq Hl].
  apply IH; trivial. now apply step_icons_spaceless.
Qed.

(** X12: as long as no icon given to [add_category] contains a space, every
    entry [get_categories] offers, in any reachable state and for any type
    argument, cleans to the name of a stored category that the type
    argument selects: the category a form stores always exists. *)
Theorem offered_category_exists (l : list request) (asked : option string)
  (chosen : string) :
  let d := run fresh l in
  forallb spaceless (added_icons l) = true ->
  In chosen (get_categories d asked) ->
  exists r, In r (rows (categories d))
            /\ type_selected asked r = true
            /\ chosen = label r
            /\ clean_category chosen = Category.name r.
Proof.
  intros d Hicons Hin.
  apply (Permutation_in _ (get_categories_perm d asked)) in Hin.
  apply in_map_iff in Hin. destruct Hin as (r & Hlabel & Hr).
  apply filter_In in Hr. destruct Hr as (Hr & Hsel).
  exists r. repeat split; trivial; [now symmetry|].
  rewrite <- Hlabel. apply clean_label_spaceless.
  assert (Hall : Forall (fun r => spaceless (Category.icon r) = true)
                   (rows (categories d))).
  { apply run_icons_spaceless; trivial.
    apply Forall_forall. intros r0 Hr0.
    pose proof fresh_icons_spaceless as Hfresh.
    rewrite forallb_forall in Hfresh. exact (Hfresh _ Hr0). }
  rewrite Forall_forall in Hall. now apply Hall.
Qed.

Lemma offered_category_exists_witness :
  exists r, In r (rows (categories scenario))
            /\ type_selected (Some "income") r = true
            /\ "💰 Salary" = label r
            /\ clean_category "💰 Salary" = Category.name r.
Proof.
  apply (offered_category_exists
           [ AddTransaction 50000 "Salary" "" "2024-01-05" "income";
             AddTransaction 1200 "Food & Dining" "" "2024-01-10" "expense" ]
           (Some "income") "💰 Salary").
  - reflexivity.
  - vm_compute. tauto.
Defined.

(** ** Dates as text: the month ranges of the sidebar *)

Lemma digit_code (k : Z) :
  (0 <= k <= 9)%Z -> N_of_ascii (digit k) = Z.to_N (48 + k).
Proof. intros Hk. unfold digit. apply N_ascii_embedding. lia. Qed.

Lemma leb_digit (k k' : Z) (s t : string) :
  (0 <= k <= 9)%Z -> (0 <= k' <= 9)%Z ->
  (String (digit k) s <=? String (digit k') t) = true
  <-> (k < k')%Z \/ (k = k' /\ (s <=? t) = true).
Proof.
  intros Hk Hk'. rewrite string_leb_cons, !digit_code by assumption.
  split; intros [H|[H1 H2]].
  - left. lia.
  - right. split; trivial.
    apply (f_equal N_of_ascii) in H1. rewrite !digit_code in H1 by assumption.
    lia.
  - left. lia.
  - right. now subst.
Qed.

Lemma leb_same_head (c : ascii) (s t : string) :
  (String c s <=? String c t) = true <-> (s <=? t) = true.
Proof.
  rewrite string_leb_cons. split.
  - intros [H|[_ H]]; [lia | exact H].
  - auto.
Qed.

Lemma two_digits_leb (b b' : Z) (s t : string) :
  (0 <= b < 100)%Z -> (0 <= b' < 100)%Z ->
  (two_digits b ++ s <=? two_digits b' ++ t) = true
  <-> (b < b')%Z \/ (b = b' /\ (s <=? t) = true).
Proof.
  intros Hb Hb'. unfold two_digits. cbn [append].
  assert (Hq : (0 <= b / 10 <= 9)%Z) by (Z.div_mod_to_equations; lia).
  assert (Hr : (0 <= b mod 10 <= 9)%Z) by (Z.div_mod_to_equations; lia).
  assert (Hq' : (0 <= b' / 10 <= 9)%Z) by (Z.div_mod_to_equations; lia).
  assert (Hr' : (0 <= b' mod 10 <= 9)%Z) by (Z.div_mod_to_equations; lia).
  rewrite leb_digit, leb_digit by assumption.
  pose proof (Z.div_mod b 10) as E. pose proof (Z.div_mod b' 10) as E'.
  split.
  - intros [H|[H1 [H|[H2 H3]]]].
    + left. lia.
    + left. lia.
    + right. split; [lia | exact H3].
  - intros [H|[H1 H2]].
    + destruct (Z.lt_trichotomy (b / 10) (b' / 10)) as [L|[L|L]];
        [now left | right | lia].
      split; trivial. left. lia.
    + subst b'. right. split; trivial. right. now split.
Qed.

Lemma four_digits_leb (a a' : Z) (s t : string) :
  (0 <= a < 10000)%Z -> (0 <= a' < 10000)%Z ->
  (four_digits a ++ s <=? four_digits a' ++ t) = true
  <-> (a < a')%Z \/ (a = a' /\ (s <=? t) = true).
Proof.
  intros Ha Ha'. unfold four_digits. cbn [append].
  assert (H3 : (0 <= a / 1000 <= 9)%Z) by (Z.div_mod_to_equations; lia).
  assert (H2 : (0 <= a / 100 mod 10 <= 9)%Z) by (Z.div_mod_to_equations; lia).
  assert (H3' : (0 <= a' / 1000 <= 9)%Z) by (Z.div_mod_to_equations; lia).
  assert (H2' : (0 <= a' / 100 mod 10 <= 9)%Z)
    by (Z.div_mod_to_equations; lia).
  assert (H1 : (0 <= a mod 100 < 100)%Z) by (Z.div_mod_to_equations; lia).
  assert (H1' : (0 <= a' mod 100 < 100)%Z) by (Z.div_mod_to_equations; lia).
  rewrite leb_digit, leb_digit, two_digits_leb by assumption.
  assert (E : (a = 1000 * (a / 1000) + 100 * (a / 100 mod 10) + a mod 100)%Z)
    by (Z.div_mod_to_equations; lia).
  assert (E' : (a' = 1000 * (a' / 1000) + 100 * (a' / 100 mod 10)
                     + a' mod 100)%Z)
    by (Z.div_mod_to_equations; lia).
  split.
  - intros [H|[Hx [H|[Hy [H|[Hz Hs]]]]]].
    + left. lia.
    + left. lia.
    + left. lia.
    + right. split; [lia | exact Hs].
  - intros [H|[Hx Hs]].
    + destruct (Z.lt_trichotomy (a / 1000) (a' / 1000)) as [L|[L|L]];
        [now left | right | lia].
      split; trivial.
      destruct (Z.lt_trichotomy (a / 100 mod 10) (a' / 100 mod 10))
        as [M|[M|M]]; [now left | right | lia].
      split; trivial. left. lia.
    + subst a'. right. split; trivial. right. split; trivial. right.
      now split.
Qed.

Lemma year_text_four (zp : bool) (year : Z) :
  (1000 <= year)%Z -> year_text zp year = four_digits year.
Proof.
  intros Hy. unfold year_text.
  replace (1000 <=? year)%Z with true by (symmetry; apply Z.leb_le; lia).
  reflexivity.
Qed.

(** On dates with a four-digit year the text order is the calendar order. *)
Lemma strftime_leb (zp : bool) (y m d y' m' d' : Z) :
  (1000 <= y < 10000)%Z -> (1000 <= y' < 10000)%Z ->
  (0 <= m < 100)%Z -> (0 <= m' < 100)%Z ->
  (0 <= d < 100)%Z -> (0 <= d' < 100)%Z ->
  (strftime zp (y, m, d) <=? strftime zp (y', m', d')) = true
  <-> (y < y')%Z \/ (y = y' /\ ((m < m')%Z \/ (m = m' /\ (d <= d')%Z))).
Proof.
  intros Hy Hy' Hm Hm' Hd Hd'. unfold strftime.
  rewrite !year_text_four by lia.
  rewrite four_digits_leb by lia.
  change ("-" ++ two_digits m ++ "-" ++ two_digits d)%string
    with (String "-" (two_digits m ++ String "-" (two_digits d ++ ""))).
  change ("-" ++ two_digits m' ++ "-" ++ two_digits d')%string
    with (String "-" (two_digits m' ++ String "-" (two_digits d' ++ ""))).
  rewrite leb_same_head, two_digits_leb, leb_same_head, two_digits_leb
    by assumption.
  split.
  - intros [H|[H1 [H|[H2 [H|[H3 _]]]]]].
    + now left.
    + right. split; trivial. now left.
    + right. split; trivial. right. split; trivial. lia.
    + right. split; trivial. right. split; trivial. lia.
  - intros [H|[H1 [H|[H2 H3]]]].
    + now left.
    + right. split; trivial. now left.
    + right. split; trivial. right. split; trivial.
      destruct (Z.eq_dec d d') as [->|Hne].
      * right. now split.
      * left. lia.
Qed.

Lemma monthrange_days_bounds (year month : Z) :
  (1 <= month <= 12)%Z -> (28 <= monthrange_days year month <= 31)%Z.
Proof.
  intros Hm. unfold monthrange_days.
  assert (Hcases : (month = 1 \/ month = 2 \/ month = 3 \/ month = 4
                    \/ month = 5 \/ month = 6 \/ month = 7 \/ month = 8
                    \/ month = 9 \/ month = 10 \/ month = 11
                    \/ month = 12)%Z)
    by lia.
  repeat (destruct Hcases as [->|Hcases]); try subst month;
    destruct (isleap year); vm_compute; split; discriminate.
Qed.

Lemma datetime_some (year month day : Z) (t : Z * Z * Z) :
  datetime year month day = Some t ->
  t = (year, month, day)
  /\ (1 <= year <= 9999)%Z /\ (1 <= month <= 12)%Z
  /\ (1 <= day <= monthrange_days year month)%Z.
Proof.
  unfold datetime.
  destruct ((1 <=? year)%Z && (year <=? 9999)%Z
            && (1 <=? month)%Z && (month <=? 12)%Z
            && (1 <=? day)%Z && (day <=? monthrange_days year month)%Z) eqn:E;
    [|discriminate].
  intros [= <-]. rewrite !andb_true_iff, !Z.leb_le in E. tauto.
Qed.

Lemma datetime_valid (year month day : Z) :
  (1 <= year <= 9999)%Z -> (1 <= month <= 12)%Z ->
  (1 <= day <= monthrange_days year month)%Z ->
  datetime year month day = Some (year, month, day).
Proof.
  intros Hy Hm Hd. unfold datetime.
  replace ((1 <=? year)%Z && (year <=? 9999)%Z
           && (1 <=? month)%Z && (month <=? 12)%Z
           && (1 <=? day)%Z && (day <=? monthrange_days year month)%Z)
    with true; trivial.
  symmetry. rewrite !andb_true_iff, !Z.leb_le. tauto.
Qed.

Lemma get_month_date_range_some (zp : bool) (month year : Z) :
  (1 <= year <= 9999)%Z -> (1 <= month <= 12)%Z ->
  get_month_date_range zp month year
  = Some (strftime zp (year, month, 1%Z),
          strftime zp (year, month, monthrange_days year month)).
Proof.
  intros Hy Hm. pose proof (monthrange_days_bounds year month Hm) as Hb.
  unfold get_month_date_range.
  rewrite (datetime_valid year month 1), (datetime_valid year month _)
    by (trivial; lia).
  reflexivity.
Qed.

(** A date of a four-digit year lies in the text range of a month exactly
    when it is a day of that month. *)
Lemma month_range_dates (zp : bool) (month year y' m' d' : Z)
  (t : Z * Z * Z) :
  (1000 <= year <= 9999)%Z -> (1 <= month <= 12)%Z ->
  (1000 <= y')%Z -> datetime y' m' d' = Some t ->
  ((strftime zp (year, month, 1%Z) <=? strftime zp t) = true
   /\ (strftime zp t <=? strftime zp (year, month, monthrange_days year month))
      = true)
  <-> y' = year /\ m' = month.
Proof.
  intros Hy Hm Hy' Ht.
  apply datetime_some in Ht. destruct Ht as (-> & Hy'' & Hm' & Hd').
  pose proof (monthrange_days_bounds year month Hm) as Hb.
  pose proof (monthrange_days_bounds y' m' Hm') as Hb'.
  rewrite !strftime_leb by lia.
  split.
  - intros [H1 H2]. lia.
  - intros [-> ->]. split; right; split; trivial; right; split; trivial; lia.
Qed.

Lemma strftime_nonempty (zp : bool) (t : Z * Z * Z) :
  (strftime zp t =? "") = false.
Proof.
  destruct t as [[y m] d]. unfold strftime, year_text, four_digits.
  destruct ((1000 <=? y)%Z || zp); [reflexivity|].
  destruct (100 <=? y)%Z; [reflexivity|].
  destruct (10 <=? y)%Z; reflexivity.
Qed.

Lemma month_filter (zp : bool) (d : db) (month year y' m' d' : Z)
  (t : Z * Z * Z)
  (r : Transaction.row) :
  (1000 <= year <= 9999)%Z -> (1 <= month <= 12)%Z ->
  (1000 <= y')%Z -> datetime y' m' d' = Some t ->
  Transaction.date r = strftime zp t ->
  In r (get_transactions d
          (Some (strftime zp (year, month, 1%Z)))
          (Some (strftime zp (year, month, monthrange_days year month)))
          None None)
  <-> In r (rows (transactions d)) /\ y' = year /\ m' = month.
Proof.
  intros Hy Hm Hy' Ht Hdate. rewrite get_transactions_in.
  unfold satisfies. cbn [constrains]. rewrite !strftime_nonempty, Hdate.
  rewrite !andb_true_r, andb_true_iff.
  now rewrite (month_range_dates zp month year y' m' d' t Hy Hm Hy' Ht).
Qed.

(** X13: for a month of a four-digit year, [get_month_date_range] gives
    the text range that picks out that month: a stored transaction whose
    date is the [%Y-%m-%d] text of a valid date (as the forms write it) is
    returned by [get_transactions] with that range exactly when the date
    falls in the month. *)
Theorem month_range_selects_the_month (zp : bool) (d : db)
  (month year y' m' d' : Z)
  (t : Z * Z * Z) (r : Transaction.row) :
  (1000 <= year <= 9999)%Z -> (1 <= month <= 12)%Z ->
  (1000 <= y')%Z -> datetime y' m' d' = Some t ->
  In r (rows (transactions d)) -> Transaction.date r = strftime zp t ->
  exists start_date end_date,
    get_month_date_range zp month year = Some (start_date, end_date)
    /\ (In r (get_transactions d (Some start_date) (Some end_date) None None)
        <-> y' = year /\ m' = month).
Proof.
  intros Hy Hm Hy' Ht Hr Hdate.
  exists (strftime zp (year, month, 1%Z)),
         (strftime zp (year, month, monthrange_days year month)).
  split; [apply (get_month_date_range_some zp); lia|].
  rewrite (month_filter zp d month year y' m' d' t r) by assumption. tauto.
Qed.

Lemma month_range_selects_the_month_witness :
  exists start_date end_date,
    get_month_date_range false 1 2024 = Some (start_date, end_date)
    /\ (In (Transaction.Row 2 1200 "Food & Dining" "" "2024-01-10" "expense")
          (get_transactions scenario (Some start_date) (Some end_date)
             None None)
        <-> 2024%Z = 2024%Z /\ 1%Z = 1%Z).
Proof.
  apply (month_range_selects_the_month false scenario 1 2024 2024 1 10
           (2024, 1, 10)%Z
           (Transaction.Row 2 1200 "Food & Dining" "" "2024-01-10" "expense")).
  - lia.
  - lia.
  - lia.
  - reflexivity.
  - vm_compute. tauto.
  - reflexivity.
Defined.

(** X14: [get_month_date_range] fails, with the [ValueError] of
    [datetime], exactly for a month outside 1 to 12 or a year outside 1 to
    9999; otherwise it returns the texts of the first day and of the last
    day of the month, which is day 28, 29, 30 or 31. *)
Theorem get_month_date_range_defined (zp : bool) (month year : Z) :
  (get_month_date_range zp month year = None
   <-> ~ ((1 <= year <= 9999)%Z /\ (1 <= month <= 12)%Z))
  /\ (forall start_date end_date,
        get_month_date_range zp month year = Some (start_date, end_date)
        <-> (1 <= year <= 9999)%Z /\ (1 <= month <= 12)%Z
            /\ start_date = strftime zp (year, month, 1%Z)
            /\ exists last_day,
                 (28 <= last_day <= 31)%Z
                 /\ datetime year month last_day = Some (year, month, last_day)
                 /\ datetime year month (last_day + 1) = None
                 /\ end_date = strftime zp (year, month, last_day)).
Proof.
  destruct (Z_le_dec 1 year) as [Hy1|Hy1];
    [destruct (Z_le_dec year 9999) as [Hy2|Hy2];
     [destruct (Z_le_dec 1 month) as [Hm1|Hm1];
      [destruct (Z_le_dec month 12) as [Hm2|Hm2]|]|]|].
  - pose proof (monthrange_days_bounds year month (conj Hm1 Hm2)) as Hb.
    rewrite (get_month_date_range_some zp month year) by lia.
    split; [split; [discriminate | intros H; exfalso; apply H; lia]|].
    intros s e. split.
    + intros [= <- <-]. repeat split; trivial.
      exists (monthrange_days year month). repeat split; try lia.
      * apply datetime_valid; lia.
      * unfold datetime.
        replace (monthrange_days year month + 1
                 <=? monthrange_days year month)%Z with false
          by (symmetry; apply Z.leb_gt; lia).
        now rewrite !andb_false_r.
    + intros (_ & _ & -> & last & Hl & Hv & Hn & ->).
      apply datetime_some in Hv. destruct Hv as (_ & _ & _ & Hd).
      assert (last = monthrange_days year month); [|now subst].
      destruct (Z_le_dec (last + 1) (monthrange_days year month)) as [L|L];
        [|lia].
      rewrite datetime_valid in Hn by lia. discriminate.
  - assert (Hnone : get_month_date_range zp month year = None).
    { unfold get_month_date_range, datetime.
      replace (month <=? 12)%Z with false by (symmetry; apply Z.leb_gt; lia).
      now rewrite !andb_false_r. }
    rewrite Hnone. split; [split; [lia | reflexivity]|].
    intros s e. split; [discriminate | lia].
  - assert (Hnone : get_month_date_range zp month year = None).
    { unfold get_month_date_range, datetime.
      replace (1 <=? month)%Z with false by (symmetry; apply Z.leb_gt; lia).
      now rewrite !andb_false_r. }
    rewrite Hnone. split; [split; [lia | reflexivity]|].
    intros s e. split; [discriminate | lia].
  - assert (Hnone : get_month_date_range zp month year = None).
    { unfold get_month_date_range, datetime.
      replace (year <=? 9999)%Z with false by (symmetry; apply Z.leb_gt; lia).
      now rewrite !andb_false_r. }
    rewrite Hnone. split; [split; [lia | reflexivity]|].
    intros s e. split; [discriminate | lia].
  - assert (Hnone : get_month_date_range zp month year = None).
    { unfold get_month_date_range, datetime.
      replace (1 <=? year)%Z with false by (symmetry; apply Z.leb_gt; lia).
      reflexivity. }
    rewrite Hnone. split; [split; [lia | reflexivity]|].
    intros s e. split; [discriminate | lia].
Qed.

(** X15: the sidebar's "Last Month" is the calendar month before: for a
    month of a year from 1001 on, the range built for the month and year
    it computes returns a stored transaction, dated as the forms date it,
    exactly when the date lies in the month that precedes, December of the
    year before when the month is January. *)
Theorem last_month_selects_the_month_before (zp : bool) (d : db)
  (month year y' m' d' : Z) (t : Z * Z * Z) (r : Transaction.row) :
  (1001 <= year <= 9999)%Z -> (1 <= month <= 12)%Z ->
  (1000 <= y')%Z -> datetime y' m' d' = Some t ->
  In r (rows (transactions d)) -> Transaction.date r = strftime zp t ->
  exists start_date end_date,
    get_month_date_range zp (fst (last_month_of month year))
      (snd (last_month_of month year)) = Some (start_date, end_date)
    /\ (In r (get_transactions d (Some start_date) (Some end_date) None None)
        <-> (12 * y' + m' = 12 * year + month - 1)%Z).
Proof.
  intros Hy Hm Hy' Ht Hr Hdate.
  pose proof (datetime_some _ _ _ _ Ht) as (_ & _ & Hm' & _).
  assert (Hlast : (1 <= fst (last_month_of month year) <= 12
                   /\ 1000 <= snd (last_month_of month year) <= 9999
                   /\ 12 * snd (last_month_of month year)
                      + fst (last_month_of month year)
                      = 12 * year + month - 1)%Z).
  { unfold last_month_of. cbn [fst snd].
    destruct (Z.gtb_spec month 1); lia. }
  destruct Hlast as (Hlm & Hly & Heq).
  exists (strftime zp (snd (last_month_of month year),
                    fst (last_month_of month year), 1%Z)),
         (strftime zp (snd (last_month_of month year),
                    fst (last_month_of month year),
                    monthrange_days (snd (last_month_of month year))
                      (fst (last_month_of month year)))).
  split; [apply (get_month_date_range_some zp); lia|].
  rewrite (month_filter zp d _ _ y' m' d' t r) by assumption. split.
  - intros (_ & -> & ->). lia.
  - intros H. split; trivial. lia.
Qed.

Lemma last_month_selects_the_month_before_witness :
  exists start_date end_date,
    get_month_date_range false (fst (last_month_of 2 2024))
      (snd (last_month_of 2 2024)) = Some (start_date, end_date)
    /\ (In (Transaction.Row 2 1200 "Food & Dining" "" "2024-01-10" "expense")
          (get_transactions scenario (Some start_date) (Some end_date)
             None None)
        <-> (12 * 2024 + 1 = 12 * 2024 + 2 - 1)%Z).
Proof.
  apply (last_month_selects_the_month_before false scenario 2 2024 2024 1 10
           (2024, 1, 10)%Z
           (Transaction.Row 2 1200 "Food & Dining" "" "2024-01-10" "expense")).
  - lia.
  - lia.
  - lia.
  - reflexivity.
  - vm_compute. tauto.
  - reflexivity.
Defined.

(** ** The budget form *)

Lemma filter_key_in_month (c : string) (m y : Z) (l : list Budget.row) :
  filter (same_key c m y) l
  = filter (fun r => Budget.category r =? c) (filter (in_month m y) l).
Proof.
  rewrite filter_filter. apply filter_ext. intros r.
  unfold same_key, in_month.
  destruct (Budget.category r =? c), (Budget.month r =? m)%Z,
    (Budget.year r =? y)%Z; reflexivity.
Qed.

Lemma dict_get_single (l : list Budget.row) (c : string) (default : Q) :
  (List.length (filter (fun r => (Budget.category r =? c)%string) l)
   <= 1)%nat ->
  dict_get (map (fun r => (Budget.category r, Budget.amount r)) l) c default
  = match filter (fun r => Budget.category r =? c) l with
    | r :: _ => Budget.amount r
    | [] => default
    end.
Proof.
  revert default. induction l as [|r l IH]; intros default Hle; trivial.
  cbn [map dict_get filter] in *.
  destruct (Budget.category r =? c) eqn:E.
  - cbn [List.length] in Hle.
    assert (Hnil : filter (fun r => Budget.category r =? c) l = []).
    { destruct (filter (fun r => Budget.category r =? c) l); trivial.
      simpl in Hle. lia. }
    rewrite IH by (rewrite Hnil; simpl; lia). now rewrite Hnil.
  - now apply IH.
Qed.

(** X16: in every reachable state the value the budget form shows for a
    category, read through a dictionary built from [get_all_budgets], is
    the amount [get_budget] returns for the category and the month, and 0
    when there is no budget. *)
Theorem current_budget_is_get_budget (l : list request) (month year : Z)
  (clean : string) :
  let d := run fresh l in
  current_budget d month year clean
  = match get_budget d clean month year with
    | Some amount => amount
    | None => 0
    end.
Proof.
  intros d.
  assert (Hu : NoDup (map budget_key (rows (budgets d)))).
  { apply (consistent_run l fresh consistent_fresh). }
  pose proof (filter_same_key_unique clean month year _ Hu) as Hle.
  unfold current_budget, get_budget, get_all_budgets.
  rewrite filter_key_in_month in *.
  fold (in_month month year).
  change (fun r : Budget.row =>
            (Budget.month r =? month)%Z && (Budget.year r =? year)%Z)
    with (in_month month year).
  rewrite dict_get_single by exact Hle.
  now destruct (filter (fun r => Budget.category r =? clean)
                  (filter (in_month month year) (rows (budgets d)))).
Qed.

Lemma get_budget_set_same (d : db) (c : string) (a : Q) (m y : Z) :
  get_budget (set_budget d c a m y) c m y = Some a.
Proof. unfold get_budget. now rewrite set_budget_key_rows. Qed.

Lemma get_budget_set_other (d : db) (c c' : string) (a : Q)
  (m y m' y' : Z) :
  (c', m', y') <> (c, m, y) ->
  get_budget (set_budget d c a m y) c' m' y' = get_budget d c' m' y'.
Proof.
  intros Hne. unfold get_budget.
  now rewrite (set_budget_other_rows d c c' a m y m' y').
Qed.

Lemma save_budgets_other (values : list (string * Q)) (d : db)
  (m y : Z) (c' : string) (m' y' : Z) :
  (forall a, In (c', a) values -> (m', y') <> (m, y)) ->
  get_budget (save_budgets d values m y) c' m' y' = get_budget d c' m' y'.
Proof.
  revert d. unfold save_budgets.
  induction values as [|[c0 a0] values IH]; intros d Hother; trivial.
  cbn [fold_left fst snd].
  rewrite IH by (intros a Ha; apply (Hother a); now right).
  destruct (Qle_bool a0 0); trivial.
  apply get_budget_set_other. intros [= -> -> ->].
  now apply (Hother a0); [left|].
Qed.

(** X17: saving the budget form, whose entries have distinct categories,
    stores every positive amount as the budget of its category for the
    month and leaves the budget of a category whose amount is not positive
    as it was, so the form never clears a budget; budgets of other months
    are untouched. *)
Theorem save_budgets_stores_positive (d : db) (values : list (string * Q))
  (month year : Z) (category : string) (amount : Q) :
  NoDup (map fst values) -> In (category, amount) values ->
  get_budget (save_budgets d values month year) category month year
  = (if Qle_bool amount 0 then get_budget d category month year
     else Some amount)
  /\ (forall c' m' y',
        (m', y') <> (month, year) ->
        get_budget (save_budgets d values month year) c' m' y'
        = get_budget d c' m' y').
Proof.
  intros Hnd Hin. split.
  - revert d. induction values as [|[c0 a0] values IH]; intros d;
      [destruct Hin|].
    inversion Hnd as [|? ? Hnotin Hnd']; subst.
    change (save_budgets d ((c0, a0) :: values) month year)
      with (save_budgets
              (if Qle_bool a0 0 then d else set_budget d c0 a0 month year)
              values month year).
    destruct Hin as [[= -> ->]|Hin].
    + rewrite save_budgets_other.
      * destruct (Qle_bool amount 0); trivial. apply get_budget_set_same.
      * intros a Ha. exfalso. apply Hnotin.
        apply (in_map fst) in Ha. exact Ha.
    + rewrite (IH Hnd' Hin).
      assert (Hne : category <> c0).
      { intros ->. apply Hnotin. apply (in_map fst) in Hin. exact Hin. }
      destruct (Qle_bool a0 0); trivial.
      rewrite get_budget_set_other by congruence. reflexivity.
  - intros c' m' y' Hne. apply save_budgets_other. intros _ _. exact Hne.
Qed.

Lemma save_budgets_stores_positive_witness :
  get_budget
    (save_budgets (set_budget scenario "Shopping" 300 1 2024)
       [("Shopping", 0); ("Utilities", 900)] 1 2024)
    "Shopping" 1 2024
  = (if Qle_bool 0 0
     then get_budget (set_budget scenario "Shopping" 300 1 2024)
            "Shopping" 1 2024
     else Some 0)
  /\ (forall c' m' y',
        (m', y') <> (1%Z, 2024%Z) ->
        get_budget
          (save_budgets (set_budget scenario "Shopping" 300 1 2024)
             [("Shopping", 0); ("Utilities", 900)] 1 2024) c' m' y'
        = get_budget (set_budget scenario "Shopping" 300 1 2024) c' m' y').
Proof.
  apply (save_budgets_stores_positive
           (set_budget scenario "Shopping" 300 1 2024)
           [("Shopping", 0); ("Utilities", 900)] 1 2024 "Shopping" 0).
  - repeat constructor; simpl; intuition discriminate.
  - now left.
Defined.

(** ** The dashboard's recent transactions *)

Lemma strongly_sorted_split {A : Type} (R : A -> A -> Prop) (l1 l2 : list A) :
  StronglySorted R (l1 ++ l2) ->
  Forall (fun a => Forall (fun b => R a b) l2) l1.
Proof.
  induction l1 as [|x l1 IH]; simpl; intros H; constructor.
  - inversion H as [|? ? _ Hall]; subst.
    apply Forall_app in Hall. tauto.
  - apply IH. now inversion H.
Qed.

(** X18: the dashboard's recent transactions are the ten newest of what
    [get_transactions] returned, or all of them when there are fewer: they
    are the first rows of the result, and every row left out is dated no
    later than every row shown. *)
Theorem recent_are_the_newest (d : db) (sd ed ty cat : option string) :
  let transactions := get_transactions d sd ed ty cat in
  transactions = recent transactions ++ skipn 10 transactions
  /\ List.length (recent transactions)
     = Nat.min 10 (List.length transactions)
  /\ Forall (fun shown =>
               Forall (fun left_out =>
                         (Transaction.date left_out <=? Transaction.date shown)
                         = true)
                 (skipn 10 transactions))
       (recent transactions).
Proof.
  intros transactions. unfold recent. split; [|split].
  - symmetry. apply firstn_skipn.
  - apply length_firstn.
  - apply strongly_sorted_split.
    rewrite firstn_skipn. apply get_transactions_sorted.
Qed.

(** ** The keys of the budget form *)

(** X19: as long as no icon given to [add_category] contains a space, the
    entries [get_categories] offers in a reachable state clean to pairwise
    distinct names, so the budget form has one field, and one widget key,
    per category. *)
Theorem offered_names_distinct (l : list request) (asked : option string) :
  forallb spaceless (added_icons l) = true ->
  NoDup (map clean_category (get_categories (run fresh l) asked)).
Proof.
  intros Hicons.
  assert (Hall : Forall (fun r => spaceless (Category.icon r) = true)
                   (rows (categories (run fresh l)))).
  { apply run_icons_spaceless; trivial.
    apply Forall_forall. intros r0 Hr0.
    pose proof fresh_icons_spaceless as Hfresh.
    rewrite forallb_forall in Hfresh. exact (Hfresh _ Hr0). }
  assert (Hnames : NoDup (map Category.name (rows (categories (run fresh l))))).
  { apply (consistent_run l fresh consistent_fresh). }
  apply (Permutation_NoDup
           (Permutation_sym
              (Permutation_map clean_category
                 (get_categories_perm (run fresh l) asked)))).
  rewrite map_map.
  rewrite (map_ext_in _ Category.name).
  - now apply NoDup_map_filter.
  - intros r Hr. apply filter_In in Hr. destruct Hr as [Hr _].
    apply clean_label_spaceless. rewrite Forall_forall in Hall.
    now apply Hall.
Qed.

Lemma offered_names_distinct_witness :
  NoDup (map clean_category
           (get_categories
              (run fresh [AddCategory "Pets" "expense" "🐕"])
              (Some "expense"))).
Proof.
  apply (offered_names_distinct [AddCategory "Pets" "expense" "🐕"]
           (Some "expense")).
  reflexivity.
Defined.

(** ** Budget against actual spending *)



(** ** What the forms store *)

(** X21: in a reachable state where no icon contains a space, submitting a
    form with an entry that [get_categories] offers for the form's type
    either stores nothing, when the amount is not positive, or appends
    exactly one transaction: its amount is the positive amount entered,
    its type is the form's, and its category is the name of a stored
    category of that type. *)
Theorem submit_transaction_stores_valid (l : list request) (amount : Q)
  (chosen description date trans_type : string) :
  let d := run fresh l in
  let d' := submit_transaction d amount chosen description date trans_type in
  forallb spaceless (added_icons l) = true ->
  trans_type <> "" ->
  In chosen (get_categories d (Some trans_type)) ->
  (amount <= 0 /\ d' = d)
  \/ (0 < amount
      /\ exists r c,
           rows (transactions d') = rows (transactions d) ++ [r]
           /\ Transaction.amount r = amount
           /\ Transaction.type r = trans_type
           /\ Transaction.date r = date
           /\ In c (rows (categories d'))
           /\ Category.name c = Transaction.category r
           /\ Category.type c = trans_type).
Proof.
  intros d d' Hicons Hty Hin. unfold d', submit_transaction.
  destruct (Qle_bool amount 0) eqn:E.
  - left. split; trivial. now apply Qle_bool_iff.
  - right. split.
    + apply Qnot_le_lt. intros Hle. apply Qle_bool_iff in Hle. congruence.
    + apply (Permutation_in _ (get_categories_perm d (Some trans_type)))
        in Hin.
      apply in_map_iff in Hin. destruct Hin as (c & Hlabel & Hc).
      apply filter_In in Hc. destruct Hc as (Hc & Hsel).
      unfold type_selected in Hsel. cbn [constrains] in Hsel.
      apply String.eqb_neq in Hty. rewrite Hty in Hsel.
      apply String.eqb_eq in Hsel.
      assert (Hall : Forall (fun r => spaceless (Category.icon r) = true)
                       (rows (categories d))).
      { apply run_icons_spaceless; trivial.
        apply Forall_forall. intros r0 Hr0.
        pose proof fresh_icons_spaceless as Hfresh.
        rewrite forallb_forall in Hfresh. exact (Hfresh _ Hr0). }
      rewrite Forall_forall in Hall.
      eexists. exists c. split; [reflexivity|].
      cbn [Transaction.amount Transaction.type Transaction.date
           Transaction.category add_transaction categories].
      repeat split; trivial.
      rewrite <- Hlabel. symmetry. apply clean_label_spaceless.
      now apply Hall.
Qed.

Lemma submit_transaction_stores_valid_witness :
  (1200 <= 0
   /\ submit_transaction scenario 1200 "🛒 Shopping" "shoes" "2024-01-12"
        "expense" = scenario)
  \/ (0 < 1200
      /\ exists r c,
           rows (transactions
                   (submit_transaction scenario 1200 "🛒 Shopping" "shoes"
                      "2024-01-12" "expense"))
           = rows (transactions scenario) ++ [r]
           /\ Transaction.amount r = 1200
           /\ Transaction.type r = "expense"
           /\ Transaction.date r = "2024-01-12"
           /\ In c (rows (categories
                            (submit_transaction scenario 1200 "🛒 Shopping"
                               "shoes" "2024-01-12" "expense")))
           /\ Category.name c = Transaction.category r
           /\ Category.type c = "expense").
Proof.
  apply (submit_transaction_stores_valid
           [ AddTransaction 50000 "Salary" "" "2024-01-05" "income";
             AddTransaction 1200 "Food & Dining" "" "2024-01-10" "expense" ]
           1200 "🛒 Shopping" "shoes" "2024-01-12" "expense").
  - reflexivity.
  - discriminate.
  - vm_compute. tauto.
Defined.

(** ** The year range and the "All" choice *)

(** X22: the sidebar's "This Year" range selects exactly the year: for a
    year from 1000 to 9999 the range exists, and a stored transaction whose
    date is the [%Y-%m-%d] text of a valid date of a four-digit year is
    returned by [get_transactions] with that range exactly when the date
    lies in the year. *)
Theorem this_year_selects_the_year (zp : bool) (d : db) (year y' m' d' : Z)
  (t : Z * Z * Z) (r : Transaction.row) :
  (1000 <= year <= 9999)%Z ->
  (1000 <= y')%Z -> datetime y' m' d' = Some t ->
  In r (rows (transactions d)) -> Transaction.date r = strftime zp t ->
  exists start_date end_date,
    this_year_range zp year = Some (start_date, end_date)
    /\ (In r (get_transactions d (Some start_date) (Some end_date) None None)
        <-> y' = year).
Proof.
  intros Hy Hy' Ht Hr Hdate.
  exists (strftime zp (year, 1%Z, 1%Z)), (strftime zp (year, 12%Z, 31%Z)).
  split.
  - unfold this_year_range.
    rewrite (datetime_valid year 1 1), (datetime_valid year 12 31);
      trivial; try lia; vm_compute; split; discriminate.
  - rewrite get_transactions_in. unfold satisfies. cbn [constrains].
    rewrite !strftime_nonempty, Hdate, !andb_true_r, andb_true_iff.
    apply datetime_some in Ht. destruct Ht as (-> & Hy'' & Hm' & Hd').
    pose proof (monthrange_days_bounds y' m' Hm') as Hb.
    rewrite !strftime_leb by lia.
    split; [intros (_ & H1 & H2); lia|].
    intros ->. split; trivial. split; right; split; trivial; lia.
Qed.

Lemma this_year_selects_the_year_witness :
  exists start_date end_date,
    this_year_range false 2024 = Some (start_date, end_date)
    /\ (In (Transaction.Row 2 1200 "Food & Dining" "" "2024-01-10" "expense")
          (get_transactions scenario (Some start_date) (Some end_date)
             None None)
        <-> 2024%Z = 2024%Z).
Proof.
  apply (this_year_selects_the_year false scenario 2024 2024 1 10
           (2024, 1, 10)%Z
           (Transaction.Row 2 1200 "Food & Dining" "" "2024-01-10" "expense")).
  - lia.
  - lia.
  - reflexivity.
  - vm_compute. tauto.
  - reflexivity.
Defined.

Lemma label_has_space (r : Category.row) :
  after_first_space (label r) <> None.
Proof.
  unfold label. induction (Category.icon r) as [|c icon IH]; simpl.
  - discriminate.
  - destruct (c =? " ")%char; [discriminate | exact IH].
Qed.

(** X23: the choice "All" of the transactions tab is never one of the
    entries [get_categories] returns, in any state and for any type
    argument: every entry contains a space, so picking "All" cannot be
    taken for picking a category. *)
Theorem all_is_not_a_category (d : db) (cat_type : option string) :
  ~ In "All" (get_categories d cat_type)
  /\ Forall (fun entry => after_first_space entry <> None)
       (get_categories d cat_type).
Proof.
  assert (Hall : Forall (fun entry => after_first_space entry <> None)
                   (get_categories d cat_type)).
  { apply Forall_forall. intros x Hx.
    apply (Permutation_in _ (get_categories_perm d cat_type)) in Hx.
    apply in_map_iff in Hx. destruct Hx as (r & <- & _).
    apply label_has_space. }
  split; trivial. intros Hin. rewrite Forall_forall in Hall.
  now apply (Hall _ Hin).
Qed.
